(** * Admin dashboard front end: token lifecycle, HTTP interceptors, log viewer

    A shallow embedding of the TypeScript sources

    - the shared axios set-up  (request and response interceptors),
    - [services/authService]   ([login], [logout], [checkAuth]),
    - [services/logsService]   ([getLogs], [clearLogs], [downloadLogs]),
    - [pages/LogsViewer]       ([fetchLogs], [handleClearLogs]),
    - [components/Header]      ([handleLogout]),
    - [hooks/useAuth]          ([checkUserAuth], [handleLogout]),
    - the effect, the select and the buttons of [pages/LogsViewer]
      (module [LogsViewerLifecycle]).

    The browser is an explicit [World]: [localStorage], the clock read by
    [Date.now()], and the chronological list of observable effects (storage
    writes, navigations, console output, requests handed to the network).
    Code that can throw lives in a state-and-exception monad [M]; an [await]
    is the point where the way the request settles enters as an argument.
    Numbers are binary64 values: [Date.now() / 1000] is the rounded
    quotient, and [<] is false on [NaN].
    Each source file is a module of the same name. *)

From Stdlib Require Import ZArith QArith Qround Qpower Lqa.
From Stdlib Require Floats.SpecFloat.
From stdpp Require Import base option list strings gmap pretty.

Local Open Scope Z_scope.
Local Open Scope string_scope.

(** ** JavaScript values of type [any]

    Bodies of error responses are not typed by the sources
    ([response.data?.detail]); they are kept as JSON-like values. *)

#[local] Set Warnings "-register-all".
Inductive JsValue : Type :=
  | JsUndefined
  | JsNull
  | JsBool (b : bool)
  | JsNumber (q : Q)
  | JsString (s : string)
  | JsArray (items : list JsValue)
  | JsObject (fields : gmap string JsValue).

(** ToBoolean.  JSON has no NaN, so a number is falsy exactly when it is 0. *)
Definition truthy (v : JsValue) : bool :=
  match v with
  | JsUndefined | JsNull => false
  | JsBool b => b
  | JsNumber q => negb (Qeq_bool q 0)
  | JsString s => negb (String.eqb s "")
  | JsArray _ | JsObject _ => true
  end.

(** [v?.detail]: undefined when [v] is nullish, otherwise the property
    [detail] of [v]; primitives and arrays carry no such property. *)
Definition optional_detail (v : JsValue) : JsValue :=
  match v with
  | JsObject fields => default JsUndefined (fields !! "detail")
  | _ => JsUndefined
  end.

(** [a || b] *)
Definition js_or (a b : JsValue) : JsValue := if truthy a then a else b.

(** [a || b] on strings: the empty string is the only falsy string. *)
Definition str_or (a b : string) : string := if String.eqb a "" then b else a.

(** ** JavaScript numbers

    A Number is a binary64 value.  A finite one is kept as the rational it
    denotes (both zeros as [0]); [NaN] and the two infinities complete the
    type.  Not every rational is a binary64 value: what the arithmetic
    below returns always is. *)

Inductive Number : Type :=
  | NaN
  | Infinity (negative : bool)
  | Finite (value : Q).

(** [x < y] on Numbers: false as soon as one side is [NaN]. *)
Definition js_lt (x y : Number) : bool :=
  match x, y with
  | Finite a, Finite b => negb (Qle_bool b a)
  | Finite _, Infinity negative => negb negative
  | Infinity negative, Finite _ => negative
  | Infinity a, Infinity b => a && negb b
  | _, _ => false
  end.

(** [x <= y] on Numbers. *)
Definition js_le (x y : Number) : bool :=
  match x, y with
  | Finite a, Finite b => Qle_bool a b
  | Finite _, Infinity negative => negb negative
  | Infinity negative, Finite _ => negative
  | Infinity a, Infinity b => a || negb b
  | _, _ => false
  end.

Definition pow2 (e : Z) : Q := Qpower (2 # 1) e.

(** The binade of a positive rational: the [k] with [2^k <= y < 2^(k+1)]. *)
Definition floor_log2 (y : Q) : Z :=
  let k := Z.log2 (Qnum y) - Z.log2 (Zpos (Qden y)) in
  if Qle_bool (pow2 k) y then k else k - 1.

(** The nearest integer, the even one of the two at a tie. *)
Definition round_half_even (y : Q) : Z :=
  let f := Qfloor y in
  match Qcompare (y - inject_Z f) (1 # 2) with
  | Lt => f
  | Gt => f + 1
  | Eq => if Z.even f then f else f + 1
  end.

(** The nearest multiple of [2^e], ties to the even multiple. *)
Definition on_grid (e : Z) (y : Q) : Q :=
  inject_Z (round_half_even (y / pow2 e)) * pow2 e.

(** A positive rational rounded to 53 significant bits, with the grid of
    the subnormals, [2^-1074], as the finest one. *)
Definition magnitude (y : Q) : Q :=
  Qred (on_grid (Z.max (floor_log2 y - 52) (-1074)) y).

Definition overflows (v : Q) : bool := Qle_bool (pow2 1024) v.

(** Round to nearest, ties to even: the binary64 value of an exact
    result. *)
Definition nearest_binary64 (y : Q) : Number :=
  match Qcompare y 0 with
  | Eq => Finite 0
  | Gt => let v := magnitude y in
          if overflows v then Infinity false else Finite v
  | Lt => let v := magnitude (- y) in
          if overflows v then Infinity true else Finite (- v)
  end.

(** [a / b] for an integral [a] and a positive integral [b] that are both
    binary64 values, as every time value of [Date.now()] and 1000 are: the
    exact quotient, rounded. *)
Definition divide (a : Z) (b : positive) : Number :=
  nearest_binary64 (a # b).

(** The same quotient by the division of the Standard Library's model of
    IEEE 754, for comparison. *)
Definition of_spec_float (x : SpecFloat.spec_float) : Number :=
  match x with
  | SpecFloat.S754_zero _ => Finite 0
  | SpecFloat.S754_infinity s => Infinity s
  | SpecFloat.S754_nan => NaN
  | SpecFloat.S754_finite s m e =>
      Finite (Qred ((if s then -1 else 1) * inject_Z (Zpos m) * pow2 e))
  end.

Definition ieee_divide (a : Z) (b : positive) : Number :=
  of_spec_float
    (SpecFloat.SFdiv 53 1024
       (SpecFloat.binary_normalize 53 1024 a 0 false)
       (SpecFloat.binary_normalize 53 1024 (Zpos b) 0 false)).

Definition same_number (x y : Number) : bool :=
  match x, y with
  | NaN, NaN => true
  | Infinity a, Infinity b => Bool.eqb a b
  | Finite a, Finite b => Qeq_bool a b
  | _, _ => false
  end.

(** [Number.isSafeInteger] on an integer: the integers that are Numbers
    of their own and that [String(n)], and so a template literal, prints
    in plain decimal digits. *)
Definition isSafeInteger (n : Z) : bool := Z.leb (Z.abs n) 9007199254740991.

(** ** The browser *)

(** [FormData]: the appended fields, in order. *)
Definition FormData : Type := list (string * string).

Definition append (name value : string) (form : FormData) : FormData :=
  (form ++ [(name, value)])%list.

(** Request configuration: [body] is [config.data], the body handed to
    [axios.post], if any; [config.headers] may be undefined.  Of the
    headers only those this code sets are kept: the ones axios adds by
    default ([Accept], [Content-Type]) are left out. *)
Record RequestConfig := mkConfig {
  method : string;
  url : string;
  body : option FormData;
  headers : option (gmap string string)
}.

Inductive Effect : Type :=
  | StorageSet (key value : string)        (* localStorage.setItem *)
  | StorageRemove (key : string)           (* localStorage.removeItem *)
  | LocationAssign (href : string)         (* window.location.href = ... *)
  | RouterNavigate (path : string)         (* navigate(...) of react-router *)
  | WindowOpen (href target : string)      (* window.open *)
  | ConsoleLog (text : string)
  | ConsoleError (text : string)
  | Sent (config : RequestConfig).         (* request handed to the adapter *)

Record World := mkWorld {
  localStorage : gmap string string;
  clock : Z;                               (* Date.now(), a time value in ms *)
  effects : list Effect                    (* oldest first *)
}.

(** [config.headers[name]] *)
Definition header (name : string) (config : RequestConfig) : option string :=
  headers config ≫= (.!! name).

Definition set_clock (c : Z) (w : World) : World :=
  {| localStorage := localStorage w; clock := c; effects := effects w |}.

Definition emit (e : Effect) (w : World) : World :=
  {| localStorage := localStorage w; clock := clock w;
     effects := effects w ++ [e] |}.

(** How often [key] was removed from the storage in a run of effects. *)
Definition is_removal (key : string) (e : Effect) : bool :=
  match e with
  | StorageRemove k => String.eqb k key
  | _ => false
  end.

Definition removals (key : string) (es : list Effect) : nat :=
  length (filter (λ e, is_removal key e) es).

(** The effects of [w'] that were not yet in [w]. *)
Definition effects_since (w w' : World) : list Effect :=
  drop (length (effects w)) (effects w').

(** ** State and exceptions *)

(** The object the response interceptor rejects with:
    [{status, message, data}], or [{message, status: 0}]. *)
Record ApiError := mkApiError {
  err_status : Z;
  err_message : JsValue;
  err_data : option JsValue
}.

(** Values a JavaScript [throw] or a rejected promise carries here. *)
Inductive Exn : Type :=
  | InvalidTokenError                      (* thrown by jwtDecode *)
  | JsError (text : string)                (* new Error(text) *)
  | Rejection (e : ApiError).              (* Promise.reject({...}) *)

(** A computation over a state [St] that returns or throws. *)
Definition M (St A : Type) : Type := St -> (A + Exn) * St.

Definition ret {St A} (a : A) : M St A := fun s => (inl a, s).
Definition throw {St A} (e : Exn) : M St A := fun s => (inr e, s).
Definition bind {St A B} (m : M St A) (k : A -> M St B) : M St B :=
  fun s => match m s with
           | (inl a, s') => k a s'
           | (inr e, s') => (inr e, s')
           end.

(** [try { body } catch (error) { handler }] *)
Definition try_catch {St A} (body : M St A) (handler : Exn -> M St A) : M St A :=
  fun s => match body s with
           | (inl a, s') => (inl a, s')
           | (inr e, s') => handler e s'
           end.

(** [try { body } finally { cleanup }]: [cleanup] runs either way, and
    what it throws replaces the outcome of [body]. *)
Definition try_finally {St A} (body : M St A) (cleanup : M St unit) : M St A :=
  fun s => let '(r, s') := body s in
           match cleanup s' with
           | (inl _, s'') => (r, s'')
           | (inr e, s'') => (inr e, s'')
           end.

Declare Scope js_scope.
Delimit Scope js_scope with js.
Notation "x <- m ;; k" := (bind m (fun x => k))
  (at level 100, m at next level, right associativity) : js_scope.
Notation "m ;;; k" := (bind m (fun _ => k))
  (at level 100, right associativity) : js_scope.
Local Open Scope js_scope.

(** Outcome and final state of a run. *)
Definition outcome {St A} (m : M St A) (s : St) : A + Exn := fst (m s).
Definition after {St A} (m : M St A) (s : St) : St := snd (m s).

Definition Js : Type -> Type := M World.

Definition getItem (key : string) : Js (option string) :=
  fun w => (inl (localStorage w !! key), w).

Definition setItem (key value : string) : Js unit :=
  fun w => (inl tt,
            emit (StorageSet key value)
              {| localStorage := <[key := value]> (localStorage w);
                 clock := clock w; effects := effects w |}).

Definition removeItem (key : string) : Js unit :=
  fun w => (inl tt,
            emit (StorageRemove key)
              {| localStorage := delete key (localStorage w);
                 clock := clock w; effects := effects w |}).

Definition effect (e : Effect) : Js unit := fun w => (inl tt, emit e w).

(** [Date.now()] *)
Definition Date_now : Js Z := fun w => (inl (clock w), w).

(** A token as an [if (token)] sees it: null and the empty string are
    falsy. *)
Definition present (token : option string) : option string :=
  match token with
  | Some t => if String.eqb t "" then None else Some t
  | None => None
  end.

Definition AUTH_TOKEN : string := "auth_token".

(** ** The shared axios instance *)

Module axios.

(** A response, reduced to the two fields the sources read. *)
Record AxiosResponse (T : Type) := mkResponse {
  status : Z;
  data : T
}.
Arguments mkResponse {T} _ _.
Arguments status {T} _.
Arguments data {T} _.

(** The [error] handed to the rejection handler of the response
    interceptor: [error.response] is absent when nothing came back. *)
Record AxiosError := mkAxiosError {
  response : option (AxiosResponse JsValue);
  message : string
}.

(** How a request settles before the response interceptor sees it: axios
    fulfils with the response when the status passes [validateStatus]
    (2xx by default) and rejects with an [AxiosError] otherwise. *)
Inductive Settled (T : Type) : Type :=
  | Fulfilled (r : AxiosResponse T)
  | Rejected (e : AxiosError).
Arguments Fulfilled {T} _.
Arguments Rejected {T} _.

Definition DEFAULT_ERROR_MESSAGE : string :=
  "Произошла ошибка при выполнении запроса".
Definition NETWORK_ERROR_MESSAGE : string := "Сетевая ошибка".

(** [axios.interceptors.response.use]: the fulfilment handler
    [(response) => response]. *)
Definition response_onFulfilled {T} (r : AxiosResponse T)
  : Js (AxiosResponse T) := ret r.

(** [axios.interceptors.response.use]: the rejection handler. *)
Definition response_onRejected {A} (error : AxiosError) : Js A :=
  match response error with
  | Some r =>
      (if Z.eqb (status r) 401
       then effect (LocationAssign "/login")
       else ret tt) ;;;
      throw (Rejection
               {| err_status := status r;
                  err_message := js_or (optional_detail (data r))
                                       (JsString DEFAULT_ERROR_MESSAGE);
                  err_data := Some (data r) |})
  | None =>
      throw (Rejection
               {| err_status := 0;
                  err_message :=
                    JsString (str_or (message error) NETWORK_ERROR_MESSAGE);
                  err_data := None |})
  end.

Definition response_interceptor {T} (s : Settled T) : Js (AxiosResponse T) :=
  match s with
  | Fulfilled r => response_onFulfilled r
  | Rejected e => response_onRejected e
  end.

(** [axios.interceptors.request.use]: the handler. *)
Definition request_interceptor (config : RequestConfig) : Js RequestConfig :=
  token <- getItem AUTH_TOKEN ;;
  match present token, headers config with
  | Some t, Some h =>
      ret {| method := method config; url := url config;
             body := body config;
             headers := Some (<["Authorization" := "Bearer " ++ t]> h) |}
  | _, _ => ret config
  end.

(** One request through the instance: the request interceptor prepares
    the configuration, the adapter sends it, and the way the request
    settles goes through the response interceptor.  By the time the
    interceptor runs axios has merged its defaults into the
    configuration, so [config.headers] is an object here; the default
    headers themselves are left out. *)
Definition request {T} (meth path : string) (payload : option FormData)
    (settled : Settled T) : Js (AxiosResponse T) :=
  config <- request_interceptor
              {| method := meth; url := path; body := payload;
                 headers := Some ∅ |} ;;
  effect (Sent config) ;;;
  response_interceptor settled.

(** [axios.get(url)] and [axios.post(url, data)] *)
Definition get {T} (path : string) : Settled T -> Js (AxiosResponse T) :=
  request "GET" path None.
Definition post {T} (path : string) (payload : option FormData)
  : Settled T -> Js (AxiosResponse T) :=
  request "POST" path payload.

End axios.

(** ** services/authService *)

Module authService.

Record User := mkUser {
  id : string;
  username : string;
  email : string;
  role : string
}.

Record AuthResponse := mkAuthResponse {
  access_token : string;
  token_type : string
}.

(** The claims [username], [email] and [role] are prefixed because [User]
    owns these field names.  [jwtDecode<DecodedToken>] checks nothing, and
    the sources use [exp] only as the left side of [<] against a Number:
    [exp] is the Number that comparison converts the claim to: the claim
    itself when it is a number, [NaN] when it is missing. *)
Record DecodedToken := mkDecodedToken {
  sub : string;
  tok_username : string;
  tok_email : string;
  tok_role : string;
  exp : Number
}.

(** [{ isAuthenticated, user }] as returned by [checkAuth]. *)
Record AuthState := mkAuthState {
  isAuthenticated : bool;
  user : option User
}.

Definition LOGIN_FAILED : string := "Неверное имя пользователя или пароль".

Section WithDecoder.

(** [jwtDecode] of the package jwt-decode: it base64url-decodes the
    second dot-separated part of the token and parses it as JSON,
    without checking the signature.  [None] stands for a thrown
    [InvalidTokenError]. *)
Variable jwtDecode : string -> option DecodedToken.

Definition decode (token : string) : Js DecodedToken :=
  match jwtDecode token with
  | Some decoded => ret decoded
  | None => throw InvalidTokenError
  end.

(** [login(username, password)]; [settled] is how the POST to
    [/api/auth/token] settles. *)
Definition login (username password : string)
    (settled : axios.Settled AuthResponse) : Js User :=
  let formData := append "password" password
                    (append "username" username []) in
  try_catch
    (response <- axios.post "/api/auth/token" (Some formData) settled ;;
     let access_token := access_token (axios.data response) in
     setItem AUTH_TOKEN access_token ;;;
     decoded <- decode access_token ;;
     ret {| id := sub decoded;
            username := tok_username decoded;
            email := tok_email decoded;
            role := tok_role decoded |})
    (fun error =>
       effect (ConsoleError "Ошибка при авторизации:") ;;;
       throw (JsError LOGIN_FAILED)).

(** [logout()] *)
Definition logout : Js unit :=
  removeItem AUTH_TOKEN ;;;
  effect (LocationAssign "/login").

(** [checkAuth()] *)
Definition checkAuth : Js AuthState :=
  token <- getItem AUTH_TOKEN ;;
  match present token with
  | None => ret {| isAuthenticated := false; user := None |}
  | Some token =>
      try_catch
        (decoded <- decode token ;;
         now <- Date_now ;;
         let currentTime := divide now 1000 in
         if js_lt (exp decoded) currentTime then
           removeItem AUTH_TOKEN ;;;
           ret {| isAuthenticated := false; user := None |}
         else
           ret {| isAuthenticated := true;
                  user := Some {| id := sub decoded;
                                  username := tok_username decoded;
                                  email := tok_email decoded;
                                  role := tok_role decoded |} |})
        (fun error =>
           removeItem AUTH_TOKEN ;;;
           ret {| isAuthenticated := false; user := None |})
  end.

End WithDecoder.

End authService.

(** ** services/logsService *)

Module logsService.

Record LogsResponse := mkLogsResponse {
  logs : list string;
  total_lines : Z;
  returned_lines : Z
}.

Record ClearLogsResponse := mkClearLogsResponse {
  status : string;
  message : string
}.

(** [getLogs(lines = 100)].  [lines] is an integer; the template literal
    prints it as [pretty] does as long as it is a safe integer
    ([isSafeInteger]), which is where the properties of [getLogs] are
    stated.  Beyond, JavaScript prints the digits of the nearest Number,
    and an exponent from [1e+21] on. *)
Definition getLogs (lines : option Z) (settled : axios.Settled LogsResponse)
  : Js LogsResponse :=
  let lines := default 100 lines in
  response <- axios.get ("/api/logs?lines=" ++ pretty lines) settled ;;
  ret (axios.data response).

(** [clearLogs()] *)
Definition clearLogs (settled : axios.Settled ClearLogsResponse)
  : Js ClearLogsResponse :=
  response <- axios.post "/api/logs/clear" None settled ;;
  ret (axios.data response).

(** [downloadLogs()] *)
Definition downloadLogs : Js unit :=
  effect (WindowOpen "/api/logs/download" "_blank").

End logsService.

(** ** pages/LogsViewer *)

Module LogsViewer.

(** The four [useState] cells of the component. *)
Record State := mkState {
  logs : list string;
  totalLines : Z;
  isLoading : bool;
  linesLimit : Z
}.

Definition initial : State :=
  {| logs := []; totalLines := 0; isLoading := false; linesLimit := 100 |}.

(** The mounted component inside its browser. *)
Record Page := mkPage {
  view : State;
  browser : World
}.

Definition lift {A} (m : Js A) : M Page A :=
  fun p => let '(r, w) := m (browser p) in
           (r, {| view := view p; browser := w |}).

Definition update (f : State -> State) : M Page unit :=
  fun p => (inl tt, {| view := f (view p); browser := browser p |}).

Definition setLogs (v : list string) : M Page unit :=
  update (fun s => {| logs := v; totalLines := totalLines s;
                      isLoading := isLoading s; linesLimit := linesLimit s |}).
Definition setTotalLines (v : Z) : M Page unit :=
  update (fun s => {| logs := logs s; totalLines := v;
                      isLoading := isLoading s; linesLimit := linesLimit s |}).
Definition setIsLoading (v : bool) : M Page unit :=
  update (fun s => {| logs := logs s; totalLines := totalLines s;
                      isLoading := v; linesLimit := linesLimit s |}).
Definition setLinesLimit (v : Z) : M Page unit :=
  update (fun s => {| logs := logs s; totalLines := totalLines s;
                      isLoading := isLoading s; linesLimit := v |}).

Definition read {A} (f : State -> A) : M Page A :=
  fun p => (inl (f (view p)), p).

(** [fetchLogs()]; [settled] is how the GET issued by [getLogs]
    settles. *)
Definition fetchLogs (settled : axios.Settled logsService.LogsResponse)
  : M Page unit :=
  setIsLoading true ;;;
  try_finally
    (try_catch
       (limit <- read linesLimit ;;
        response <- lift (logsService.getLogs (Some limit) settled) ;;
        setLogs (logsService.logs response) ;;;
        setTotalLines (logsService.total_lines response))
       (fun error =>
          lift (effect (ConsoleError "Ошибка при получении логов:"))))
    (setIsLoading false).

(** [handleClearLogs()]; [confirmed] is the answer to [confirm(...)].
    The [fetchLogs()] after a successful clear is not awaited; it is
    run here at the point where it is started. *)
Definition handleClearLogs (confirmed : bool)
    (cleared : axios.Settled logsService.ClearLogsResponse)
    (refetched : axios.Settled logsService.LogsResponse) : M Page unit :=
  if confirmed then
    try_catch
      (lift (logsService.clearLogs cleared) ;;;
       fetchLogs refetched)
      (fun error =>
         lift (effect (ConsoleError "Ошибка при очистке логов:")))
  else ret tt.

End LogsViewer.

(** ** components/Header *)

Module Header.

(** [handleLogout()] *)
Definition handleLogout : Js unit :=
  effect (ConsoleLog "Выход из системы") ;;;
  effect (RouterNavigate "/login").

End Header.

(** ** Names for the values [checkAuth] and [login] return *)

Definition signed_out : authService.AuthState :=
  {| authService.isAuthenticated := false; authService.user := None |}.

Definition user_of (decoded : authService.DecodedToken) : authService.User :=
  {| authService.id := authService.sub decoded;
     authService.username := authService.tok_username decoded;
     authService.email := authService.tok_email decoded;
     authService.role := authService.tok_role decoded |}.

Definition signed_in (decoded : authService.DecodedToken)
  : authService.AuthState :=
  {| authService.isAuthenticated := true;
     authService.user := Some (user_of decoded) |}.

(** ** Sample data for closed instances *)

Definition sample_token : string := "eyJhbGciOiJIUzI1NiJ9.eyJzdWIiOiI3In0.c2ln".

Definition sample_claims : authService.DecodedToken :=
  {| authService.sub := "7";
     authService.tok_username := "admin";
     authService.tok_email := "admin@example.org";
     authService.tok_role := "admin";
     authService.exp := Finite (1700000000 # 1) |}.

(** A stand-in for jwt-decode that knows one token and rejects every other
    string, the empty one included. *)
Definition sample_decode (token : string) : option authService.DecodedToken :=
  if String.eqb token sample_token then Some sample_claims else None.

(** The claims of [sample_token] with another [exp], and the stand-in
    that decodes [sample_token] to given claims. *)
Definition with_exp (e : Number) : authService.DecodedToken :=
  {| authService.sub := "7";
     authService.tok_username := "admin";
     authService.tok_email := "admin@example.org";
     authService.tok_role := "admin";
     authService.exp := e |}.

Definition decode_as (claims : authService.DecodedToken) (token : string)
  : option authService.DecodedToken :=
  if String.eqb token sample_token then Some claims else None.

(** Dividends and positive divisors, Numbers themselves, on which [divide]
    is compared with the division of [SpecFloat]: clock readings around
    the sample's expiry and at the ends of the range of time values,
    quotients that do not terminate in binary, and quotients in the
    subnormal range and at the largest Number. *)
Definition division_samples : list (Z * Z) :=
  (map (fun i => (1699999999000 + i, 1000)) (seqZ 0 2001)
   ++ map (fun i => (i * 7919 + 1, 1000)) (seqZ 0 500)
   ++ [ (0, 1000); (1, 1000); (-1, 1000); (-1700000000001, 1000);
        (8640000000000000, 1000); (-8640000000000000, 1000);
        (9007199254740991, 1000); (9007199254740992, 1000);
        (1, 3); (2, 3); (1, 10); (9007199254740991, 3);
        (1, 9007199254740991); (1, Z.pow 2 1023);
        (1, Z.pow 2 1023 + Z.pow 2 971); (3, Z.pow 2 1023 + Z.pow 2 971);
        (5, Z.pow 2 1024 - Z.pow 2 971); (1, Z.pow 2 1024 - Z.pow 2 971);
        (Z.pow 2 1024 - Z.pow 2 971, 1); (Z.pow 2 1024 - Z.pow 2 971, 3);
        (- (Z.pow 2 1024 - Z.pow 2 971), 7) ])%list.

Definition world_with (token : string) (now : Z) : World :=
  {| localStorage := {[ AUTH_TOKEN := token ]}; clock := now; effects := [] |}.

Definition empty_world : World :=
  {| localStorage := ∅; clock := 1700000000000; effects := [] |}.

Definition unauthorized : axios.AxiosError :=
  {| axios.response :=
       Some {| axios.status := 401;
               axios.data := JsObject {[ "detail" := JsString "Not authenticated" ]} |};
     axios.message := "Request failed with status code 401" |}.

Definition network_down : axios.AxiosError :=
  {| axios.response := None; axios.message := "Network Error" |}.

Definition token_issued : axios.Settled authService.AuthResponse :=
  axios.Fulfilled
    {| axios.status := 200;
       axios.data := {| authService.access_token := sample_token;
                        authService.token_type := "bearer" |} |}.

Definition garbage_issued : axios.Settled authService.AuthResponse :=
  axios.Fulfilled
    {| axios.status := 200;
       axios.data := {| authService.access_token := "not-a-jwt";
                        authService.token_type := "bearer" |} |}.

Definition two_lines : axios.Settled logsService.LogsResponse :=
  axios.Fulfilled
    {| axios.status := 200;
       axios.data := {| logsService.logs := ["a"; "b"];
                        logsService.total_lines := 2;
                        logsService.returned_lines := 2 |} |}.

Definition logs_request : RequestConfig :=
  {| method := "GET"; url := "/api/logs?lines=100"; body := None;
     headers := Some ∅ |}.

(** ** A request in two halves

    Between the call of [axios.get]/[axios.post] and the [await] that
    resumes with the response, other handlers of the page may run.  [send]
    is what happens up to the point where the request is with the
    network, [receive] what happens from the moment it settles. *)

Module pending.

Definition send (meth path : string) (payload : option FormData) : Js unit :=
  config <- axios.request_interceptor
              {| method := meth; url := path; body := payload;
                 headers := Some ∅ |} ;;
  effect (Sent config).

(** The response interceptor, then [return response.data] of the
    service function. *)
Definition receive {T} (settled : axios.Settled T) : Js T :=
  response <- axios.response_interceptor settled ;;
  ret (axios.data response).

End pending.

(** ** hooks/useAuth *)

Module useAuth.

(** The two [useState] cells of the hook. *)
Record State := mkState {
  isLoading : bool;
  authState : authService.AuthState
}.

Definition initial : State :=
  {| isLoading := true;
     authState := {| authService.isAuthenticated := false;
                     authService.user := None |} |}.

(** The component that uses the hook, inside its browser. *)
Record Hook := mkHook {
  state : State;
  browser : World
}.

Definition lift {A} (m : Js A) : M Hook A :=
  fun h => let '(r, w) := m (browser h) in
           (r, {| state := state h; browser := w |}).

Definition update (f : State -> State) : M Hook unit :=
  fun h => (inl tt, {| state := f (state h); browser := browser h |}).

Definition setAuthState (v : authService.AuthState) : M Hook unit :=
  update (fun s => {| isLoading := isLoading s; authState := v |}).
Definition setIsLoading (v : bool) : M Hook unit :=
  update (fun s => {| isLoading := v; authState := authState s |}).

(** [checkUserAuth()], the body of the effect that runs once on mount. *)
Definition checkUserAuth
    (jwtDecode : string -> option authService.DecodedToken) : M Hook unit :=
  checked <- lift (authService.checkAuth jwtDecode) ;;
  setAuthState {| authService.isAuthenticated :=
                    authService.isAuthenticated checked;
                  authService.user := authService.user checked |} ;;;
  setIsLoading false.

(** [handleLogout()], returned by the hook as [logout]. *)
Definition handleLogout : M Hook unit :=
  lift authService.logout ;;;
  setAuthState {| authService.isAuthenticated := false;
                  authService.user := None |}.

End useAuth.

(** ** pages/LogsViewer: the effect, the timer and the controls

    [fetchLogs] in its two halves, and the events of the mounted
    component.  The effect [useEffect(..., [linesLimit])] runs after the
    first render and after every render in which [linesLimit] has changed,
    its cleanup before each re-run and on unmount; a state setter called
    with the current value causes no re-run. *)

Module LogsViewerLifecycle.

Import LogsViewer.

(** [fetchLogs()] up to its [await]; [limit] is the [linesLimit] of the
    render whose [fetchLogs] this is. *)
Definition fetchLogs_start (limit : Z) : M Page unit :=
  setIsLoading true ;;;
  lift (pending.send "GET" ("/api/logs?lines=" ++ pretty limit) None).

(** [fetchLogs()] from its [await] on. *)
Definition fetchLogs_resume
    (settled : axios.Settled logsService.LogsResponse) : M Page unit :=
  try_finally
    (try_catch
       (response <- lift (pending.receive settled) ;;
        setLogs (logsService.logs response) ;;;
        setTotalLines (logsService.total_lines response))
       (fun error =>
          lift (effect (ConsoleError "Ошибка при получении логов:"))))
    (setIsLoading false).

(** The component with its timers: [cleanup] is the interval handle the
    pending cleanup of the effect will clear ([None] while unmounted);
    [timers] maps each live [setInterval] handle to the [linesLimit] its
    callback's [fetchLogs] has captured. *)
Record Component := mkComponent {
  page : Page;
  cleanup : option nat;
  timers : gmap nat Z;
  next_timer : nat
}.

Definition unmounted (w : World) : Component :=
  {| page := {| view := initial; browser := w |};
     cleanup := None; timers := ∅; next_timer := 0 |}.

Definition with_page (f : Page -> Page) (c : Component) : Component :=
  {| page := f (page c); cleanup := cleanup c;
     timers := timers c; next_timer := next_timer c |}.

(** The body of the effect: [fetchLogs()], then [setInterval] with a
    callback that calls the same [fetchLogs]. *)
Definition run_effect (c : Component) : Component :=
  let limit := linesLimit (view (page c)) in
  {| page := after (fetchLogs_start limit) (page c);
     cleanup := Some (next_timer c);
     timers := <[next_timer c := limit]> (timers c);
     next_timer := S (next_timer c) |}.

(** The cleanup of the effect: [clearInterval(interval)]. *)
Definition run_cleanup (c : Component) : Component :=
  match cleanup c with
  | Some interval =>
      {| page := page c; cleanup := None;
         timers := delete interval (timers c);
         next_timer := next_timer c |}
  | None => c
  end.

Inductive Event : Type :=
  | Mount
  | Unmount
  | SelectLimit (value : Z)     (* onChange of the select *)
  | ClickRefresh                (* the button, disabled while loading *)
  | Tick (interval : nat)       (* a timer fires *)
  | Settles (settled : axios.Settled logsService.LogsResponse).

Definition step (e : Event) (c : Component) : Component :=
  match e with
  | Mount =>
      match cleanup c with
      | Some _ => c
      | None =>
          run_effect
            (with_page (fun p => {| view := initial; browser := browser p |}) c)
      end
  | Unmount => run_cleanup c
  | SelectLimit value =>
      match cleanup c with
      | Some _ =>
          if Z.eqb value (linesLimit (view (page c))) then c
          else run_effect
                 (run_cleanup
                    (with_page (after (setLinesLimit value)) c))
      | None => c
      end
  | ClickRefresh =>
      match cleanup c with
      | Some _ =>
          if isLoading (view (page c)) then c
          else with_page
                 (after (fetchLogs_start (linesLimit (view (page c))))) c
      | None => c
      end
  | Tick interval =>
      match timers c !! interval with
      | Some limit => with_page (after (fetchLogs_start limit)) c
      | None => c
      end
  | Settles settled =>
      match cleanup c with
      | Some _ => with_page (after (fetchLogs_resume settled)) c
      | None =>
          (* the setters of an unmounted component change nothing *)
          with_page
            (fun p => {| view := view p;
                         browser := browser (after (fetchLogs_resume settled) p) |})
            c
      end
  end.

Definition run (events : list Event) (c : Component) : Component :=
  fold_left (fun c e => step e c) events c.

(** Exactly one live timer, holding the current limit, while mounted;
    none while unmounted. *)
Definition one_timer (c : Component) : Prop :=
  match cleanup c with
  | Some interval => timers c = {[ interval := linesLimit (view (page c)) ]}
  | None => timers c = ∅
  end.

End LogsViewerLifecycle.

(** ** Reading the effects *)

(** The requests among a run of effects, oldest first. *)
Definition requests (es : list Effect) : list RequestConfig :=
  omap (fun e => match e with Sent config => Some config | _ => None end) es.

(** The header a request carries for a stored token, if any. *)
Definition bearer (token : option string) : gmap string string :=
  match present token with
  | Some t => {[ "Authorization" := "Bearer " ++ t ]}
  | None => ∅
  end.

(** The request the instance hands to the network in world [w]. *)
Definition prepared (meth path : string) (payload : option FormData)
    (w : World) : RequestConfig :=
  {| method := meth; url := path; body := payload;
     headers := Some (bearer (localStorage w !! AUTH_TOKEN)) |}.

(** The effects of the response interceptor on a settled request. *)
Definition redirect_of {T} (settled : axios.Settled T) : list Effect :=
  match settled with
  | axios.Fulfilled _ => []
  | axios.Rejected error =>
      match axios.response error with
      | Some r =>
          if Z.eqb (axios.status r) 401 then [LocationAssign "/login"] else []
      | None => []
      end
  end.

(** The form and the request of [login]. *)
Definition login_form (username password : string) : FormData :=
  [("username", username); ("password", password)].

Definition login_request (username password : string) (w : World)
  : RequestConfig :=
  prepared "POST" "/api/auth/token" (Some (login_form username password)) w.

(** What a failed fetch leaves on the console. *)
Definition fetch_failure_log {T} (settled : axios.Settled T) : list Effect :=
  match settled with
  | axios.Fulfilled _ => []
  | axios.Rejected _ => [ConsoleError "Ошибка при получении логов:"]
  end.

(** The request of [getLogs(lines)] and the one of [clearLogs()]. *)
Definition logs_request_for (lines : Z) (w : World) : RequestConfig :=
  prepared "GET" ("/api/logs?lines=" ++ pretty lines) None w.

Definition clear_request (w : World) : RequestConfig :=
  prepared "POST" "/api/logs/clear" None w.

(** The cells of the log viewer once a fetch has settled. *)
Definition settled_view (settled : axios.Settled logsService.LogsResponse)
    (s : LogsViewer.State) : LogsViewer.State :=
  match settled with
  | axios.Fulfilled r =>
      {| LogsViewer.logs := logsService.logs (axios.data r);
         LogsViewer.totalLines := logsService.total_lines (axios.data r);
         LogsViewer.isLoading := false;
         LogsViewer.linesLimit := LogsViewer.linesLimit s |}
  | axios.Rejected _ =>
      {| LogsViewer.logs := LogsViewer.logs s;
         LogsViewer.totalLines := LogsViewer.totalLines s;
         LogsViewer.isLoading := false;
         LogsViewer.linesLimit := LogsViewer.linesLimit s |}
  end.

(** The cells of the log viewer once a fetch has started. *)
Definition loading_view (s : LogsViewer.State) : LogsViewer.State :=
  {| LogsViewer.logs := LogsViewer.logs s;
     LogsViewer.totalLines := LogsViewer.totalLines s;
     LogsViewer.isLoading := true;
     LogsViewer.linesLimit := LogsViewer.linesLimit s |}.

(** Further sample data. *)
Definition issued_response : axios.AxiosResponse authService.AuthResponse :=
  {| axios.status := 200;
     axios.data := {| authService.access_token := sample_token;
                      authService.token_type := "bearer" |} |}.

Definition garbage_response : axios.AxiosResponse authService.AuthResponse :=
  {| axios.status := 200;
     axios.data := {| authService.access_token := "not-a-jwt";
                      authService.token_type := "bearer" |} |}.

Definition freshly_mounted : LogsViewerLifecycle.Component :=
  LogsViewerLifecycle.step LogsViewerLifecycle.Mount
    (LogsViewerLifecycle.unmounted empty_world).

(** * Properties *)

(** ** Basic facts *)

(** ** Rounding to binary64 is monotone *)

Section Rounding.

Local Open Scope Q_scope.

Lemma pow2_pos (e : Z) : 0 < pow2 e.
Proof. apply Qpower_0_lt. reflexivity. Qed.

Lemma pow2_add (a b : Z) : pow2 (a + b) == pow2 a * pow2 b.
Proof. apply Qpower_plus. discriminate. Qed.

Lemma pow2_le (a b : Z) : (a <= b)%Z -> pow2 a <= pow2 b.
Proof. intros H. apply Qpower_le_compat_l; [exact H | discriminate]. Qed.

Lemma pow2_lt (a b : Z) : (a < b)%Z -> pow2 a < pow2 b.
Proof. intros H. apply Qpower_lt_compat_l; [exact H | reflexivity]. Qed.

Lemma pow2_Z (n : Z) : (0 <= n)%Z -> pow2 n == inject_Z (2 ^ n).
Proof. intros H. unfold pow2. by rewrite Zpower_Qpower. Qed.

(** [floor_log2 y] is the binade of a positive [y]. *)
Lemma floor_log2_spec (y : Q) :
  0 < y -> pow2 (floor_log2 y) <= y /\ y < pow2 (floor_log2 y + 1).
Proof.
  intros Hy. destruct y as [n d]. unfold floor_log2. cbn [Qnum Qden].
  assert (0 < n)%Z as Hn.
  { unfold Qlt in Hy. simpl in Hy. lia. }
  pose proof (Z.log2_spec n Hn) as [Hn1 Hn2].
  pose proof (Z.log2_spec (Zpos d) (Pos2Z.is_pos d)) as [Hd1 Hd2].
  pose proof (Z.log2_nonneg n) as Hln.
  pose proof (Z.log2_nonneg (Zpos d)) as Hld.
  set (a := Z.log2 n) in *. set (b := Z.log2 (Zpos d)) in *.
  assert (n # d == inject_Z n / inject_Z (Zpos d)) as Hq.
  { apply Qmake_Qdiv. }
  assert (0 < inject_Z (Zpos d)) as Hdpos.
  { unfold Qlt. simpl. lia. }
  assert (n # d < pow2 (a - b + 1)) as Hup.
  { rewrite Hq. apply Qlt_shift_div_r; [exact Hdpos|].
    apply Qlt_le_trans with (pow2 (a + 1)).
    - rewrite pow2_Z by lia. rewrite <- Zlt_Qlt.
      replace (a + 1)%Z with (Z.succ a) by lia. exact Hn2.
    - replace (a + 1)%Z with ((a - b + 1) + b)%Z by lia.
      rewrite pow2_add.
      apply Qmult_le_l; [apply pow2_pos|].
      rewrite pow2_Z by lia. rewrite <- Zle_Qle. exact Hd1. }
  assert (pow2 (a - b - 1) < n # d) as Hlow.
  { rewrite Hq. apply Qlt_shift_div_l; [exact Hdpos|].
    apply Qlt_le_trans with (pow2 (a - b - 1) * pow2 (b + 1)).
    - apply Qmult_lt_l; [apply pow2_pos|].
      rewrite pow2_Z by lia. rewrite <- Zlt_Qlt.
      replace (b + 1)%Z with (Z.succ b) by lia. exact Hd2.
    - rewrite <- pow2_add. replace (a - b - 1 + (b + 1))%Z with a by lia.
      rewrite pow2_Z by lia. rewrite <- Zle_Qle. exact Hn1. }
  destruct (Qle_bool (pow2 (a - b)) (n # d)) eqn:Hc.
  - apply Qle_bool_iff in Hc. split; [exact Hc | exact Hup].
  - split.
    + apply Qlt_le_weak. exact Hlow.
    + replace (a - b - 1 + 1)%Z with (a - b)%Z by lia.
      apply Qnot_le_lt. intros Hle. apply Qle_bool_iff in Hle. congruence.
Qed.

Lemma floor_log2_mono (y y' : Q) :
  0 < y -> y <= y' -> (floor_log2 y <= floor_log2 y')%Z.
Proof.
  intros Hy Hle.
  destruct (floor_log2_spec y Hy) as [H1 _].
  destruct (floor_log2_spec y') as [_ H2].
  { apply Qlt_le_trans with y; assumption. }
  assert (pow2 (floor_log2 y) < pow2 (floor_log2 y' + 1)) as Hlt.
  { apply Qle_lt_trans with y; [exact H1|].
    apply Qle_lt_trans with y'; assumption. }
  apply Qpower_lt_compat_l_inv in Hlt; [lia | reflexivity].
Qed.

Lemma round_half_even_bounds (y : Q) :
  (Qfloor y <= round_half_even y <= Qfloor y + 1)%Z.
Proof.
  unfold round_half_even.
  destruct (y - inject_Z (Qfloor y) ?= 1 # 2); [|lia|lia].
  destruct (Z.even (Qfloor y)); lia.
Qed.

Lemma round_half_even_mono (y y' : Q) :
  y <= y' -> (round_half_even y <= round_half_even y')%Z.
Proof.
  intros Hle.
  pose proof (Qfloor_resp_le y y' Hle) as Hf.
  pose proof (round_half_even_bounds y) as Hb.
  pose proof (round_half_even_bounds y') as Hb'.
  destruct (Z.eq_dec (Qfloor y) (Qfloor y')) as [Heq|Hne]; [|lia].
  unfold round_half_even. rewrite <- Heq.
  assert (y - inject_Z (Qfloor y) <= y' - inject_Z (Qfloor y)) as Hr by lra.
  destruct (Qcompare_spec (y - inject_Z (Qfloor y)) (1 # 2)) as [H1|H1|H1];
    destruct (Qcompare_spec (y' - inject_Z (Qfloor y)) (1 # 2)) as [H2|H2|H2];
    try lia; try lra; destruct (Z.even (Qfloor y)); lia.
Qed.

Lemma round_half_even_Z (z : Z) : round_half_even (inject_Z z) = z.
Proof.
  unfold round_half_even. rewrite Qfloor_Z.
  destruct (Qcompare_spec (inject_Z z - inject_Z z) (1 # 2)) as [H|H|H].
  - lra.
  - reflexivity.
  - lra.
Qed.

Lemma on_grid_mono (e : Z) (y y' : Q) :
  y <= y' -> on_grid e y <= on_grid e y'.
Proof.
  intros Hle. unfold on_grid.
  apply Qmult_le_compat_r; [|apply Qlt_le_weak, pow2_pos].
  rewrite <- Zle_Qle. apply round_half_even_mono.
  apply Qmult_le_compat_r; [exact Hle|].
  apply Qlt_le_weak, Qinv_lt_0_compat, pow2_pos.
Qed.

Lemma round_half_even_comp (y y' : Q) :
  y == y' -> round_half_even y = round_half_even y'.
Proof.
  intros Heq.
  assert (y <= y') as H1 by lra. assert (y' <= y) as H2 by lra.
  apply round_half_even_mono in H1, H2. lia.
Qed.

(** A power of two at or above the grid step is on the grid. *)
Lemma on_grid_pow2 (e k : Z) :
  (0 <= k)%Z -> on_grid e (pow2 (e + k)) == pow2 (e + k).
Proof.
  intros Hk. unfold on_grid.
  rewrite (round_half_even_comp _ (inject_Z (2 ^ k))).
  - rewrite round_half_even_Z, pow2_add, <- pow2_Z by lia. ring.
  - rewrite pow2_add, <- pow2_Z by lia. field.
    pose proof (pow2_pos e). lra.
Qed.

(** Below [2^(e+53)] the grid value stays at or below it; from [2^(e+52)]
    on it stays at or above it. *)
Lemma on_grid_upper (e : Z) (y : Q) :
  y <= pow2 (e + 53) -> on_grid e y <= pow2 (e + 53).
Proof.
  intros Hy. rewrite <- (on_grid_pow2 e 53) by lia. by apply on_grid_mono.
Qed.

Lemma on_grid_lower (e : Z) (y : Q) :
  pow2 (e + 52) <= y -> pow2 (e + 52) <= on_grid e y.
Proof.
  intros Hy. rewrite <- (on_grid_pow2 e 52) by lia. by apply on_grid_mono.
Qed.

Lemma magnitude_on_grid (y : Q) :
  magnitude y == on_grid (Z.max (floor_log2 y - 52) (-1074)) y.
Proof. unfold magnitude. apply Qred_correct. Qed.

Lemma magnitude_mono (y y' : Q) :
  0 < y -> y <= y' -> magnitude y <= magnitude y'.
Proof.
  intros Hy Hle. rewrite !magnitude_on_grid.
  assert (0 < y') as Hy' by lra.
  pose proof (floor_log2_mono y y' Hy Hle) as HL.
  destruct (floor_log2_spec y Hy) as [_ Hup].
  destruct (floor_log2_spec y' Hy') as [Hlow _].
  set (L := floor_log2 y) in *. set (L' := floor_log2 y') in *.
  destruct (Z.eq_dec (Z.max (L - 52) (-1074)) (Z.max (L' - 52) (-1074)))
    as [Heq|Hne].
  - rewrite Heq. by apply on_grid_mono.
  - assert (Z.max (L - 52) (-1074) < Z.max (L' - 52) (-1074))%Z as Hlt by lia.
    assert (Z.max (L' - 52) (-1074) = L' - 52)%Z as He' by lia.
    set (e := Z.max (L - 52) (-1074)) in *.
    apply Qle_trans with (pow2 (e + 53)).
    + apply on_grid_upper. apply Qlt_le_weak.
      apply Qlt_le_trans with (pow2 (L + 1)); [exact Hup|].
      apply pow2_le. lia.
    + apply Qle_trans with (pow2 (L' - 52 + 52)).
      * apply pow2_le. lia.
      * rewrite He'. apply on_grid_lower.
        replace (L' - 52 + 52)%Z with L' by lia. exact Hlow.
Qed.

Lemma magnitude_nonneg (y : Q) : 0 < y -> 0 <= magnitude y.
Proof.
  intros Hy. rewrite magnitude_on_grid. unfold on_grid.
  apply Qmult_le_0_compat; [|apply Qlt_le_weak, pow2_pos].
  change 0 with (inject_Z 0). rewrite <- Zle_Qle.
  pose proof (round_half_even_bounds
                (y / pow2 (Z.max (floor_log2 y - 52) (-1074)))) as [Hb _].
  assert (0 <= Qfloor (y / pow2 (Z.max (floor_log2 y - 52) (-1074))))%Z.
  { change 0%Z with (Qfloor 0). apply Qfloor_resp_le.
    apply Qlt_le_weak, Qlt_shift_div_l; [apply pow2_pos|]. lra. }
  lia.
Qed.

Lemma nearest_binary64_mono (y y' : Q) :
  y <= y' -> js_le (nearest_binary64 y) (nearest_binary64 y') = true.
Proof.
  intros Hle. unfold nearest_binary64, overflows.
  destruct (Qcompare_spec y 0) as [Hy|Hy|Hy];
    destruct (Qcompare_spec y' 0) as [Hy'|Hy'|Hy']; try lra.
  - done.
  - pose proof (magnitude_nonneg y' Hy') as Hn.
    destruct (Qle_bool (pow2 1024) (magnitude y')); [done|].
    simpl. apply Qle_bool_iff. exact Hn.
  - pose proof (magnitude_nonneg (- y)) as Hn.
    destruct (Qle_bool (pow2 1024) (magnitude (- y))); [done|].
    simpl. apply Qle_bool_iff. lra.
  - assert (magnitude (- y') <= magnitude (- y)) as Hm.
    { apply magnitude_mono; lra. }
    destruct (Qle_bool (pow2 1024) (magnitude (- y))) eqn:Ho.
    + by destruct (Qle_bool (pow2 1024) (magnitude (- y'))).
    + destruct (Qle_bool (pow2 1024) (magnitude (- y'))) eqn:Ho'.
      * apply Qle_bool_iff in Ho'.
        assert (Qle_bool (pow2 1024) (magnitude (- y)) = true) as Hc.
        { apply Qle_bool_iff. lra. }
        congruence.
      * simpl. apply Qle_bool_iff. lra.
  - pose proof (magnitude_nonneg (- y)) as Hn.
    pose proof (magnitude_nonneg y' Hy') as Hn'.
    destruct (Qle_bool (pow2 1024) (magnitude (- y)));
      destruct (Qle_bool (pow2 1024) (magnitude y')); try done.
    simpl. apply Qle_bool_iff. lra.
  - assert (magnitude y <= magnitude y') as Hm.
    { apply magnitude_mono; lra. }
    destruct (Qle_bool (pow2 1024) (magnitude y')) eqn:Ho'.
    + by destruct (Qle_bool (pow2 1024) (magnitude y)).
    + destruct (Qle_bool (pow2 1024) (magnitude y)) eqn:Ho.
      * apply Qle_bool_iff in Ho.
        assert (Qle_bool (pow2 1024) (magnitude y') = true) as Hc.
        { apply Qle_bool_iff. lra. }
        congruence.
      * simpl. apply Qle_bool_iff. exact Hm.
Qed.

Lemma js_lt_le_trans (x a b : Number) :
  js_lt x a = true -> js_le a b = true -> js_lt x b = true.
Proof.
  destruct x as [|[|]|x], a as [|[|]|a], b as [|[|]|b]; simpl;
    try done.
  rewrite !negb_true_iff, <- !not_true_iff_false, !Qle_bool_iff.
  intros H1 H2 H3. apply H1. lra.
Qed.

(** Dividing a later time value by the same divisor gives a Number that is
    not smaller. *)
Lemma divide_mono (a a' : Z) (b : positive) :
  (a <= a')%Z -> js_le (divide a b) (divide a' b) = true.
Proof.
  intros Hle. apply nearest_binary64_mono. unfold Qle. simpl. nia.
Qed.

End Rounding.

Lemma run_pair {St A} (m : M St A) (s s' : St) (r : A + Exn) :
  m s = (r, s') -> outcome m s = r /\ after m s = s'.
Proof. unfold outcome, after. by intros ->. Qed.

Lemma present_nonempty (t : string) : t ≠ "" -> present (Some t) = Some t.
Proof.
  intros Ht. unfold present.
  destruct (String.eqb_spec t "") as [->|_]; [done | reflexivity].
Qed.

Lemma present_Some (o : option string) (t : string) :
  present o = Some t <-> o = Some t /\ t ≠ "".
Proof.
  unfold present. destruct o as [s|]; [|split; [done | by intros [? _]]].
  destruct (String.eqb_spec s "") as [->|Hs]; split.
  - done.
  - intros [[= <-] Hne]. done.
  - intros [= <-]. done.
  - intros [[= <-] _]. done.
Qed.

Lemma present_None (o : option string) :
  present o = None <-> o = None \/ o = Some "".
Proof.
  unfold present. destruct o as [s|]; [|split; [by left | done]].
  destruct (String.eqb_spec s "") as [->|Hs]; split.
  - by right.
  - done.
  - done.
  - intros [|[= ->]]; done.
Qed.

Lemma truthy_js_or (a : JsValue) (s : string) :
  s ≠ "" -> truthy (js_or a (JsString s)) = true.
Proof.
  intros Hs. unfold js_or. destruct (truthy a) eqn:Ha; [done|].
  simpl. by destruct (String.eqb_spec s "").
Qed.

Lemma str_or_nonempty (a b : string) : b ≠ "" -> str_or a b ≠ "".
Proof.
  intros Hb. unfold str_or. by destruct (String.eqb_spec a "").
Qed.

(** ** checkAuth, case by case *)

Section CheckAuth.

Import authService.
Variable jwtDecode : string -> option DecodedToken.

Lemma checkAuth_absent (w : World) :
  present (localStorage w !! AUTH_TOKEN) = None ->
  checkAuth jwtDecode w = (inl signed_out, w).
Proof.
  intros H. unfold checkAuth, bind, getItem. by rewrite H.
Qed.

Lemma checkAuth_undecodable (w : World) (t : string) :
  present (localStorage w !! AUTH_TOKEN) = Some t ->
  jwtDecode t = None ->
  checkAuth jwtDecode w = (inl signed_out, after (removeItem AUTH_TOKEN) w).
Proof.
  intros H Hd. unfold checkAuth, bind, getItem. rewrite H.
  unfold try_catch, decode. by rewrite Hd.
Qed.

Lemma checkAuth_expired (w : World) (t : string) (d : DecodedToken) :
  present (localStorage w !! AUTH_TOKEN) = Some t ->
  jwtDecode t = Some d ->
  js_lt (exp d) (divide (clock w) 1000) = true ->
  checkAuth jwtDecode w = (inl signed_out, after (removeItem AUTH_TOKEN) w).
Proof.
  intros H Hd Hlt. unfold checkAuth, bind, getItem. rewrite H.
  unfold try_catch, decode. rewrite Hd. unfold ret, Date_now.
  by rewrite Hlt.
Qed.

Lemma checkAuth_valid (w : World) (t : string) (d : DecodedToken) :
  present (localStorage w !! AUTH_TOKEN) = Some t ->
  jwtDecode t = Some d ->
  js_lt (exp d) (divide (clock w) 1000) = false ->
  checkAuth jwtDecode w = (inl (signed_in d), w).
Proof.
  intros H Hd Hlt. unfold checkAuth, bind, getItem. rewrite H.
  unfold try_catch, decode. rewrite Hd. unfold ret, Date_now.
  by rewrite Hlt.
Qed.

Lemma removed_absent (w : World) :
  present (localStorage (after (removeItem AUTH_TOKEN) w) !! AUTH_TOKEN) = None.
Proof.
  unfold after, removeItem. simpl. by rewrite lookup_delete_eq.
Qed.

End CheckAuth.

(** ** The axios interceptors *)

Section Interceptors.

Import axios.

Lemma request_interceptor_run (config : RequestConfig) (w : World) :
  exists config', request_interceptor config w = (inl config', w).
Proof.
  unfold request_interceptor, bind, getItem.
  destruct (present _), (headers config); by eexists.
Qed.

Lemma response_onRejected_throws {A} (error : AxiosError) (w : World) :
  exists e, outcome (@response_onRejected A error) w = inr (Rejection e).
Proof.
  unfold outcome, response_onRejected.
  destruct (response error) as [r|]; [|by eexists].
  unfold bind. destruct (status r =? 401)%Z; by eexists.
Qed.

Lemma response_onRejected_storage {A} (error : AxiosError) (w : World) :
  localStorage (after (@response_onRejected A error) w) = localStorage w.
Proof.
  unfold after, response_onRejected.
  destruct (response error) as [r|]; [|done].
  unfold bind. by destruct (status r =? 401)%Z.
Qed.

(** A rejected request reaches the caller as a [Rejection] and leaves the
    storage as it was. *)
Lemma request_rejected {T} (meth path : string) (payload : option FormData)
    (error : AxiosError) (w : World) :
  exists e w',
    @request T meth path payload (Rejected error) w = (inr (Rejection e), w')
    /\ localStorage w' = localStorage w.
Proof.
  unfold request, bind.
  destruct (request_interceptor_run
              {| method := meth; url := path; body := payload;
                 headers := Some ∅ |} w)
    as [config' ->].
  simpl.
  pose proof (response_onRejected_throws (A := AxiosResponse T) error
                (emit (Sent config') w)) as [e He].
  pose proof (response_onRejected_storage (A := AxiosResponse T) error
                (emit (Sent config') w)) as Hs.
  unfold outcome in He. unfold after in Hs.
  destruct (response_onRejected error (emit (Sent config') w)) as [r w'].
  simpl in *. subst r. by exists e, w'.
Qed.

(** A fulfilled request returns the response; only the [Sent] effect is
    added to the world. *)
Lemma request_fulfilled {T} (meth path : string) (payload : option FormData)
    (r : AxiosResponse T) (w : World) :
  exists config',
    request meth path payload (Fulfilled r) w = (inl r, emit (Sent config') w).
Proof.
  unfold request, bind.
  destruct (request_interceptor_run
              {| method := meth; url := path; body := payload;
                 headers := Some ∅ |} w)
    as [config' ->].
  by exists config'.
Qed.

End Interceptors.

(** ** The session: [checkAuth] and [login] *)

Section Session.

Import authService.

Variable jwtDecode : string -> option DecodedToken.

(** jwt-decode reads the part after the first dot, and the empty string
    has none: [jwtDecode("")] throws. *)
Hypothesis jwtDecode_empty : jwtDecode "" = None.


Lemma decodable_nonempty (t : string) (d : DecodedToken) :
  jwtDecode t = Some d -> t ≠ "".
Proof. intros Hd ->. congruence. Qed.

(** C2, as the code has it: for every stored token whose decoded [exp]
    is strictly less than [Date.now() / 1000], the binary64 quotient the
    code compares it with, [checkAuth] returns the unauthenticated state
    and removes [auth_token] from the storage. *)
Theorem checkAuth_expired_token (w : World) (t : string) (d : DecodedToken) :
  localStorage w !! AUTH_TOKEN = Some t ->
  jwtDecode t = Some d ->
  js_lt (exp d) (divide (clock w) 1000) = true ->
  outcome (checkAuth jwtDecode) w = inl signed_out
  /\ localStorage (after (checkAuth jwtDecode) w)
     = delete AUTH_TOKEN (localStorage w)
  /\ localStorage (after (checkAuth jwtDecode) w) !! AUTH_TOKEN = None.
Proof.
  intros Hw Hd Hlt.
  assert (present (localStorage w !! AUTH_TOKEN) = Some t) as Hp.
  { rewrite Hw. apply present_nonempty. by eapply decodable_nonempty. }
  unfold outcome, after.
  rewrite (checkAuth_expired jwtDecode w t d Hp Hd Hlt). simpl.
  repeat split. apply lookup_delete_eq.
Qed.

(** [checkAuth] returns whatever the storage holds and whatever the
    decoder does: nothing it runs escapes its [try]. *)
Lemma checkAuth_returns (w : World) :
  exists st, outcome (checkAuth jwtDecode) w = inl st.
Proof.
  unfold outcome.
  destruct (present (localStorage w !! AUTH_TOKEN)) as [t|] eqn:Hp.
  - destruct (jwtDecode t) as [d|] eqn:Hd.
    + destruct (js_lt (exp d) (divide (clock w) 1000)) eqn:Hlt.
      * rewrite (checkAuth_expired jwtDecode w t d Hp Hd Hlt). by eexists.
      * rewrite (checkAuth_valid jwtDecode w t d Hp Hd Hlt). by eexists.
    + rewrite (checkAuth_undecodable jwtDecode w t Hp Hd). by eexists.
  - rewrite (checkAuth_absent jwtDecode w Hp). by eexists.
Qed.

(** C3, as the code has it: [checkAuth] never throws; for every stored
    token that fails to decode it returns the unauthenticated state; a
    non-empty such token is removed from the storage, while an empty
    stored token is taken for an absent one and the world is left exactly
    as it was. *)
Theorem checkAuth_undecodable_token (w : World) (t : string) :
  localStorage w !! AUTH_TOKEN = Some t ->
  jwtDecode t = None ->
  (forall w', exists st, outcome (checkAuth jwtDecode) w' = inl st)
  /\ outcome (checkAuth jwtDecode) w = inl signed_out
  /\ (t ≠ "" ->
      localStorage (after (checkAuth jwtDecode) w)
      = delete AUTH_TOKEN (localStorage w)
      /\ localStorage (after (checkAuth jwtDecode) w) !! AUTH_TOKEN = None)
  /\ (t = "" -> after (checkAuth jwtDecode) w = w).
Proof.
  intros Hw Hd. split; [apply checkAuth_returns|].
  unfold outcome, after.
  destruct (String.eqb_spec t "") as [->|Hne].
  - rewrite (checkAuth_absent jwtDecode w).
    + simpl. repeat split; done.
    + apply present_None. by right.
  - rewrite (checkAuth_undecodable jwtDecode w t).
    + simpl. repeat split; try done. apply lookup_delete_eq.
    + rewrite Hw. by apply present_nonempty.
    + done.
Qed.

(** A second [checkAuth] that reads the same clock as the first returns
    the same state and leaves the world exactly as the first call left
    it. *)
Lemma checkAuth_same_clock (w : World) :
  outcome (checkAuth jwtDecode) (after (checkAuth jwtDecode) w)
  = outcome (checkAuth jwtDecode) w
  /\ after (checkAuth jwtDecode) (after (checkAuth jwtDecode) w)
     = after (checkAuth jwtDecode) w.
Proof.
  unfold outcome, after.
  destruct (present (localStorage w !! AUTH_TOKEN)) as [t|] eqn:Hp.
  - destruct (jwtDecode t) as [d|] eqn:Hd.
    + destruct (js_lt (exp d) (divide (clock w) 1000)) eqn:Hlt.
      * rewrite (checkAuth_expired jwtDecode w t d Hp Hd Hlt). simpl.
        by rewrite (checkAuth_absent jwtDecode _ (removed_absent w)).
      * rewrite (checkAuth_valid jwtDecode w t d Hp Hd Hlt). simpl.
        by rewrite (checkAuth_valid jwtDecode w t d Hp Hd Hlt).
    + rewrite (checkAuth_undecodable jwtDecode w t Hp Hd). simpl.
      by rewrite (checkAuth_absent jwtDecode _ (removed_absent w)).
  - rewrite (checkAuth_absent jwtDecode w Hp). simpl.
    by rewrite (checkAuth_absent jwtDecode w Hp).
Qed.

(** Once [checkAuth] has answered unauthenticated, it keeps doing so
    however far the clock moves on, and changes nothing any more. *)
Lemma checkAuth_signed_out_stable (w : World) (later : Z) :
  outcome (checkAuth jwtDecode) w = inl signed_out ->
  checkAuth jwtDecode (set_clock later (after (checkAuth jwtDecode) w))
  = (inl signed_out, set_clock later (after (checkAuth jwtDecode) w)).
Proof.
  unfold outcome, after.
  destruct (present (localStorage w !! AUTH_TOKEN)) as [t|] eqn:Hp.
  - destruct (jwtDecode t) as [d|] eqn:Hd.
    + destruct (js_lt (exp d) (divide (clock w) 1000)) eqn:Hlt.
      * rewrite (checkAuth_expired jwtDecode w t d Hp Hd Hlt). simpl.
        intros _. apply checkAuth_absent. apply (removed_absent w).
      * rewrite (checkAuth_valid jwtDecode w t d Hp Hd Hlt). simpl.
        intros [=].
    + rewrite (checkAuth_undecodable jwtDecode w t Hp Hd). simpl.
      intros _. apply checkAuth_absent. apply (removed_absent w).
  - rewrite (checkAuth_absent jwtDecode w Hp). simpl.
    intros _. by apply checkAuth_absent.
Qed.

(** When the stored token is still unexpired at a later clock reading,
    [checkAuth] at that reading does what it did before, whatever it did
    before. *)
Lemma checkAuth_unexpired_later (w : World) (later : Z) :
  (forall t d, localStorage w !! AUTH_TOKEN = Some t ->
               jwtDecode t = Some d ->
               js_lt (exp d) (divide later 1000) = false) ->
  checkAuth jwtDecode (set_clock later (after (checkAuth jwtDecode) w))
  = (outcome (checkAuth jwtDecode) w,
     set_clock later (after (checkAuth jwtDecode) w)).
Proof.
  intros Hlater. unfold outcome, after.
  destruct (present (localStorage w !! AUTH_TOKEN)) as [t|] eqn:Hp.
  - destruct (jwtDecode t) as [d|] eqn:Hd.
    + destruct (js_lt (exp d) (divide (clock w) 1000)) eqn:Hlt.
      * rewrite (checkAuth_expired jwtDecode w t d Hp Hd Hlt). simpl.
        apply checkAuth_absent. apply (removed_absent w).
      * rewrite (checkAuth_valid jwtDecode w t d Hp Hd Hlt). simpl.
        apply (checkAuth_valid jwtDecode (set_clock later w) t d Hp Hd).
        apply present_Some in Hp as [Hw _]. by apply (Hlater t d).
    + rewrite (checkAuth_undecodable jwtDecode w t Hp Hd). simpl.
      apply checkAuth_absent. apply (removed_absent w).
  - rewrite (checkAuth_absent jwtDecode w Hp). simpl.
    by apply checkAuth_absent.
Qed.

Lemma checkAuth_keeps_clock (w : World) :
  clock (after (checkAuth jwtDecode) w) = clock w.
Proof.
  unfold after.
  destruct (present (localStorage w !! AUTH_TOKEN)) as [t|] eqn:Hp.
  - destruct (jwtDecode t) as [d|] eqn:Hd.
    + destruct (js_lt (exp d) (divide (clock w) 1000)) eqn:Hlt.
      * by rewrite (checkAuth_expired jwtDecode w t d Hp Hd Hlt).
      * by rewrite (checkAuth_valid jwtDecode w t d Hp Hd Hlt).
    + by rewrite (checkAuth_undecodable jwtDecode w t Hp Hd).
  - by rewrite (checkAuth_absent jwtDecode w Hp).
Qed.

(** C9, as the code has it: a second [checkAuth] returns the same state as
    the first and changes nothing, provided the token has not expired in
    between: when the second call reads the same clock as the first, when
    the first answer was already unauthenticated, or when the stored token
    is still unexpired at the clock reading of the second call. *)
Theorem checkAuth_twice (w : World) (later : Z) :
  later = clock w
  \/ outcome (checkAuth jwtDecode) w = inl signed_out
  \/ (forall t d, localStorage w !! AUTH_TOKEN = Some t ->
                  jwtDecode t = Some d ->
                  js_lt (exp d) (divide later 1000) = false) ->
  outcome (checkAuth jwtDecode)
    (set_clock later (after (checkAuth jwtDecode) w))
  = outcome (checkAuth jwtDecode) w
  /\ after (checkAuth jwtDecode)
       (set_clock later (after (checkAuth jwtDecode) w))
     = set_clock later (after (checkAuth jwtDecode) w).
Proof.
  intros [->|[Hout|Hlater]].
  - assert (set_clock (clock w) (after (checkAuth jwtDecode) w)
            = after (checkAuth jwtDecode) w) as ->.
    { pose proof (checkAuth_keeps_clock w) as Hc.
      destruct (after (checkAuth jwtDecode) w) as [ls c es].
      simpl in Hc. by subst c. }
    apply checkAuth_same_clock.
  - apply run_pair.
    rewrite (checkAuth_signed_out_stable w later Hout). by rewrite Hout.
  - apply run_pair. exact (checkAuth_unexpired_later w later Hlater).
Qed.

(** C4: when the POST to [/api/auth/token] is rejected, with a response
    of the server or with none at all, [login] throws the one error
    [new Error(LOGIN_FAILED)] and the storage is what it was before. *)
Theorem login_rejected
    (username password : string) (error : axios.AxiosError) (w : World) :
  outcome (login jwtDecode username password (axios.Rejected error)) w
  = inr (JsError LOGIN_FAILED)
  /\ localStorage
       (after (login jwtDecode username password (axios.Rejected error)) w)
     = localStorage w.
Proof.
  unfold outcome, after, authService.login, try_catch, bind, axios.post.
  destruct (request_rejected (T := AuthResponse) "POST" "/api/auth/token"
              (Some (append "password" password
                       (append "username" username [])))
              error w) as (e & w' & -> & Hs).
  simpl. by split.
Qed.

(** What a [login] that returns has done: the request was fulfilled, its
    [access_token] decoded, and the token sits in the storage. *)
Lemma login_returned
    (username password : string) (settled : axios.Settled AuthResponse)
    (w w1 : World) (u : User) :
  login jwtDecode username password settled w = (inl u, w1) ->
  exists (r : axios.AxiosResponse AuthResponse) (d : DecodedToken),
    settled = axios.Fulfilled r
    /\ jwtDecode (access_token (axios.data r)) = Some d
    /\ u = user_of d
    /\ localStorage w1 !! AUTH_TOKEN = Some (access_token (axios.data r)).
Proof.
  destruct settled as [r|error].
  - destruct (request_fulfilled "POST" "/api/auth/token"
                (Some (append "password" password
                         (append "username" username [])))
                r w) as [config' Hr].
    unfold authService.login, try_catch, bind, axios.post. rewrite Hr.
    unfold setItem, decode.
    destruct (jwtDecode (access_token (axios.data r))) as [d|] eqn:Hd.
    + intros [= <- <-]. exists r, d. split; [done|]. split; [done|].
      split; [done|]. simpl. apply lookup_insert_eq.
    + intros [=].
  - unfold authService.login, try_catch, bind, axios.post.
    destruct (request_rejected (T := AuthResponse) "POST" "/api/auth/token"
                (Some (append "password" password
                         (append "username" username [])))
                error w) as (e & w' & -> & _).
    intros [=].
Qed.

(** C5: after a [login] that returned, the request was fulfilled, the
    storage holds the [access_token] of its response, that token decodes,
    the identity [login] returned is the one made of its claims, and a
    [checkAuth] at any clock reading at which the token has not expired
    (the test [exp < Date.now() / 1000] fails) returns the authenticated
    state with that same identity, changing nothing. *)
Theorem checkAuth_after_login
    (username password : string) (settled : axios.Settled AuthResponse)
    (w w1 : World) (u : User) :
  login jwtDecode username password settled w = (inl u, w1) ->
  exists (r : axios.AxiosResponse AuthResponse) (d : DecodedToken),
    settled = axios.Fulfilled r
    /\ localStorage w1 !! AUTH_TOKEN = Some (access_token (axios.data r))
    /\ jwtDecode (access_token (axios.data r)) = Some d
    /\ u = user_of d
    /\ forall now : Z,
         js_lt (exp d) (divide now 1000) = false ->
         checkAuth jwtDecode (set_clock now w1)
         = (inl {| isAuthenticated := true; user := Some (user_of d) |},
            set_clock now w1).
Proof.
  intros Hl.
  destruct (login_returned _ _ _ _ _ _ Hl) as (r & d & -> & Hd & -> & Hs).
  exists r, d.
  split; [done|]. split; [done|]. split; [done|]. split; [done|].
  intros now Hnow.
  apply (checkAuth_valid jwtDecode _ (access_token (axios.data r)) d).
  - simpl. rewrite Hs. apply present_nonempty. by eapply decodable_nonempty.
  - done.
  - exact Hnow.
Qed.

End Session.

(** ** What the interceptors do to a request and to a rejection *)

Section Wrapper.

Import axios.

Lemma effects_since_app (w w' : World) (es : list Effect) :
  effects w' = (effects w ++ es)%list -> effects_since w w' = es.
Proof.
  intros H. unfold effects_since. rewrite H. apply drop_app_length.
Qed.

(** The rejection handler on an error that carries a response: the one
    effect is the assignment to [window.location.href], and only for 401. *)
Lemma response_onRejected_response {A} (error : AxiosError)
    (r : AxiosResponse JsValue) (w : World) :
  response error = Some r ->
  @response_onRejected A error w
  = (inr (Rejection
            {| err_status := status r;
               err_message := js_or (optional_detail (data r))
                                    (JsString DEFAULT_ERROR_MESSAGE);
               err_data := Some (data r) |}),
     if (status r =? 401)%Z then emit (LocationAssign "/login") w else w).
Proof.
  intros Hr. unfold response_onRejected. rewrite Hr. unfold bind.
  by destruct (status r =? 401)%Z.
Qed.

Lemma response_onRejected_no_response {A} (error : AxiosError) (w : World) :
  response error = None ->
  @response_onRejected A error w
  = (inr (Rejection
            {| err_status := 0;
               err_message :=
                 JsString (str_or (message error) NETWORK_ERROR_MESSAGE);
               err_data := None |}),
     w).
Proof.
  intros Hr. unfold response_onRejected. by rewrite Hr.
Qed.

Lemma request_rejected_run {T} (meth path : string)
    (payload : option FormData) (error : AxiosError) (w : World) :
  exists config',
    @request T meth path payload (Rejected error) w
    = response_onRejected error (emit (Sent config') w).
Proof.
  unfold request, bind.
  destruct (request_interceptor_run
              {| method := meth; url := path; body := payload;
                 headers := Some ∅ |} w)
    as [config' ->].
  by exists config'.
Qed.

(** C1, as the code has it: for every request, to any endpoint, that is
    answered with status 401, the response interceptor assigns [/login]
    to [window.location.href] as its last effect and rejects with the
    normalised error of status 401; it removes nothing from the storage,
    which is left exactly as it was. *)
Theorem unauthorized_redirects_only {T} (meth path : string)
    (payload : option FormData)
    (error : AxiosError) (r : AxiosResponse JsValue) (w : World) :
  response error = Some r ->
  status r = 401 ->
  let w' := after (@request T meth path payload (Rejected error)) w in
  localStorage w' = localStorage w
  /\ removals AUTH_TOKEN (effects_since w w') = 0%nat
  /\ (exists config', effects_since w w'
                      = [Sent config'; LocationAssign "/login"])
  /\ exists e, outcome (@request T meth path payload (Rejected error)) w
               = inr (Rejection e) /\ err_status e = 401.
Proof.
  intros Hr Hs. unfold outcome, after.
  destruct (request_rejected_run (T := T) meth path payload error w) as [config' ->].
  rewrite (response_onRejected_response error r _ Hr).
  rewrite Hs. simpl.
  assert (effects_since w
            (emit (LocationAssign "/login") (emit (Sent config') w))
          = [Sent config'; LocationAssign "/login"]) as Hes.
  { apply effects_since_app. simpl. by rewrite <- app_assoc. }
  rewrite Hes.
  split; [done|]. split; [done|]. split; [by exists config'|].
  eexists. split; [done|]. done.
Qed.

(** C7, as the code has it: the request interceptor never throws and
    changes nothing in the world; when the storage holds a non-empty token
    and the configuration has a headers object, it returns the
    configuration with [Authorization] set to [Bearer <token>] and every
    other header kept; when the token is absent or empty, or there is no
    headers object, it returns the configuration unmodified. *)
Theorem request_interceptor_spec (config : RequestConfig) (w : World) :
  after (request_interceptor config) w = w
  /\ (forall (t : string) (h : gmap string string),
        localStorage w !! AUTH_TOKEN = Some t ->
        t ≠ "" ->
        headers config = Some h ->
        outcome (request_interceptor config) w
        = inl {| method := method config; url := url config;
                 body := body config;
                 headers := Some (<["Authorization" := "Bearer " ++ t]> h) |})
  /\ (localStorage w !! AUTH_TOKEN = None
      \/ localStorage w !! AUTH_TOKEN = Some ""
      \/ headers config = None ->
      outcome (request_interceptor config) w = inl config).
Proof.
  unfold outcome, after, request_interceptor, bind, getItem.
  split; [|split].
  - by destruct (present _), (headers config).
  - intros t h Ht Hne Hh. rewrite Ht, (present_nonempty t Hne), Hh. done.
  - intros [Ht|[Ht|Hh]].
    + rewrite Ht. done.
    + rewrite Ht. done.
    + rewrite Hh. by destruct (present _).
Qed.

(** C8: a request rejected with a response reaches the caller as the record
    made of the status of the response, a message (the [detail] of the
    body when that is truthy, a fixed text otherwise; truthy either way)
    and the body of the response; a request rejected without a response
    reaches the caller as the record of status 0 with a message (the one
    of the error, or a fixed text when that is empty; never empty) and no
    body. *)
Theorem rejection_normalized {T} (meth path : string)
    (payload : option FormData) (error : AxiosError) (w : World) :
  match response error with
  | Some r =>
      let msg := js_or (optional_detail (data r))
                       (JsString DEFAULT_ERROR_MESSAGE) in
      truthy msg = true
      /\ outcome (@request T meth path payload (Rejected error)) w
         = inr (Rejection {| err_status := status r;
                             err_message := msg;
                             err_data := Some (data r) |})
  | None =>
      let text := str_or (message error) NETWORK_ERROR_MESSAGE in
      text ≠ ""
      /\ outcome (@request T meth path payload (Rejected error)) w
         = inr (Rejection {| err_status := 0;
                             err_message := JsString text;
                             err_data := None |})
  end.
Proof.
  unfold outcome.
  destruct (request_rejected_run (T := T) meth path payload error w)
    as [config' ->].
  destruct (response error) as [r|] eqn:Hr.
  - rewrite (response_onRejected_response error r _ Hr). simpl.
    split; [|done]. by apply truthy_js_or.
  - rewrite (response_onRejected_no_response error _ Hr). simpl.
    split; [|done]. by apply str_or_nonempty.
Qed.

End Wrapper.

(** ** The log window *)

Section LogWindow.

Import LogsViewer.

Lemma getLogs_fulfilled (lines : option Z)
    (r : axios.AxiosResponse logsService.LogsResponse) (w : World) :
  exists config',
    logsService.getLogs lines (axios.Fulfilled r) w
    = (inl (axios.data r), emit (Sent config') w).
Proof.
  unfold logsService.getLogs, axios.get, bind.
  destruct (request_fulfilled "GET"
              ("/api/logs?lines=" ++ pretty (default 100 lines)) None r w)
    as [config' ->].
  by exists config'.
Qed.

Lemma getLogs_rejected (lines : option Z) (error : axios.AxiosError)
    (w : World) :
  exists e w',
    logsService.getLogs lines (axios.Rejected error) w
    = (inr (Rejection e), w').
Proof.
  unfold logsService.getLogs, axios.get, bind.
  destruct (request_rejected (T := logsService.LogsResponse) "GET"
              ("/api/logs?lines=" ++ pretty (default 100 lines)) None error w)
    as (e & w' & -> & _).
  by exists e, w'.
Qed.

(** C6: [fetchLogs] always returns.  When the GET is fulfilled with
    [{logs, total_lines, returned_lines}] the displayed lines become
    [logs] and the displayed total becomes [total_lines], whatever was
    displayed before; when the GET is rejected the displayed lines and
    total are what they were.  Either way the requested limit is kept and
    the loading flag ends up off. *)
Theorem fetchLogs_window (settled : axios.Settled logsService.LogsResponse)
    (p : Page) :
  outcome (fetchLogs settled) p = inl tt
  /\ linesLimit (view (after (fetchLogs settled) p)) = linesLimit (view p)
  /\ isLoading (view (after (fetchLogs settled) p)) = false
  /\ match settled with
     | axios.Fulfilled r =>
         logs (view (after (fetchLogs settled) p))
         = logsService.logs (axios.data r)
         /\ totalLines (view (after (fetchLogs settled) p))
            = logsService.total_lines (axios.data r)
     | axios.Rejected _ =>
         logs (view (after (fetchLogs settled) p)) = logs (view p)
         /\ totalLines (view (after (fetchLogs settled) p))
            = totalLines (view p)
     end.
Proof.
  destruct settled as [r|error].
  - destruct (getLogs_fulfilled (Some (linesLimit (view p))) r (browser p))
      as [config' Hg].
    unfold outcome, after, fetchLogs, try_finally, try_catch, bind,
      setIsLoading, setLogs, setTotalLines, update, read, lift.
    cbn [view browser linesLimit]. rewrite Hg. done.
  - destruct (getLogs_rejected (Some (linesLimit (view p))) error (browser p))
      as (e & w' & Hg).
    unfold outcome, after, fetchLogs, try_finally, try_catch, bind,
      setIsLoading, setLogs, setTotalLines, update, read, lift.
    cbn [view browser linesLimit]. rewrite Hg. done.
Qed.

End LogWindow.

(** ** The two ways out *)

(** C10: the logout of the header logs a line and navigates the router to
    [/login]; it leaves the storage as it was, so a stored token is still
    there afterwards.  [authService.logout] from the same world removes
    the token before it assigns [/login] to [window.location.href]. *)
Theorem header_logout_keeps_token (w : World) (t : string) :
  localStorage w !! AUTH_TOKEN = Some t ->
  outcome Header.handleLogout w = inl tt
  /\ localStorage (after Header.handleLogout w) = localStorage w
  /\ localStorage (after Header.handleLogout w) !! AUTH_TOKEN = Some t
  /\ effects_since w (after Header.handleLogout w)
     = [ConsoleLog "Выход из системы"; RouterNavigate "/login"]
  /\ localStorage (after authService.logout w) !! AUTH_TOKEN = None
  /\ effects_since w (after authService.logout w)
     = [StorageRemove AUTH_TOKEN; LocationAssign "/login"].
Proof.
  intros Ht.
  unfold outcome, after, Header.handleLogout, authService.logout, bind,
    effect, removeItem.
  simpl.
  split; [done|]. split; [done|]. split; [done|].
  split; [|split].
  - apply effects_since_app. simpl. by rewrite <- app_assoc.
  - apply lookup_delete_eq.
  - apply effects_since_app. simpl. by rewrite <- app_assoc.
Qed.

(** ** Closed instances *)

(** C1 fails as stated: a 401 answer to a request made while a token is
    stored leaves that token in the storage, and the storage sees no
    removal at all. *)
Lemma unauthorized_keeps_token :
  let w := world_with sample_token 1700000000000 in
  let w' := after (@axios.request JsValue "GET" "/api/logs?lines=100" None
                     (axios.Rejected unauthorized)) w in
  localStorage w' !! AUTH_TOKEN = Some sample_token
  /\ removals AUTH_TOKEN (effects w') = 0%nat
  /\ ~ (localStorage w' !! AUTH_TOKEN = None
        /\ removals AUTH_TOKEN (effects w') = 1%nat).
Proof.
  vm_compute. split; [reflexivity|]. split; [reflexivity|].
  intros [H _]. discriminate H.
Qed.

Lemma unauthorized_redirects_only_witness :
  let w := world_with sample_token 1700000000000 in
  let w' := after (@axios.request JsValue "GET" "/api/logs?lines=100" None
                     (axios.Rejected unauthorized)) w in
  localStorage w' = localStorage w
  /\ removals AUTH_TOKEN (effects_since w w') = 0%nat
  /\ (exists config', effects_since w w'
                      = [Sent config'; LocationAssign "/login"])
  /\ exists e, outcome (@axios.request JsValue "GET" "/api/logs?lines=100" None
                          (axios.Rejected unauthorized)) w
               = inr (Rejection e) /\ err_status e = 401.
Proof.
  apply (unauthorized_redirects_only (T := JsValue) "GET" "/api/logs?lines=100"
           None unauthorized
           {| axios.status := 401;
              axios.data :=
                JsObject {[ "detail" := JsString "Not authenticated" ]} |});
    reflexivity.
Defined.

(** C2 fails as stated: at the very second of expiry, [exp = now], the
    token still counts as valid; [checkAuth] answers authenticated and the
    token stays in the storage. *)
Lemma checkAuth_at_expiry_instant :
  let w := world_with sample_token 1700000000000 in
  localStorage w !! AUTH_TOKEN = Some sample_token
  /\ sample_decode sample_token = Some sample_claims
  /\ js_le (authService.exp sample_claims) (divide (clock w) 1000) = true
  /\ outcome (authService.checkAuth sample_decode) w
     = inl (signed_in sample_claims)
  /\ localStorage (after (authService.checkAuth sample_decode) w) !! AUTH_TOKEN
     = Some sample_token.
Proof.
  vm_compute. repeat split; reflexivity.
Qed.

Lemma checkAuth_expired_token_witness :
  let w := world_with sample_token 1700000001000 in
  outcome (authService.checkAuth sample_decode) w = inl signed_out
  /\ localStorage (after (authService.checkAuth sample_decode) w)
     = delete AUTH_TOKEN (localStorage w)
  /\ localStorage (after (authService.checkAuth sample_decode) w) !! AUTH_TOKEN
     = None.
Proof.
  apply (checkAuth_expired_token sample_decode eq_refl
           (world_with sample_token 1700000001000) sample_token sample_claims);
    reflexivity.
Defined.

(** C3 fails as stated: an empty string stored under [auth_token] does not
    decode, yet [checkAuth] leaves it in the storage. *)
Lemma checkAuth_empty_token_kept :
  let w := world_with "" 1700000000000 in
  localStorage w !! AUTH_TOKEN = Some ""
  /\ sample_decode "" = None
  /\ outcome (authService.checkAuth sample_decode) w = inl signed_out
  /\ localStorage (after (authService.checkAuth sample_decode) w) !! AUTH_TOKEN
     = Some ""
  /\ removals AUTH_TOKEN
       (effects (after (authService.checkAuth sample_decode) w)) = 0%nat.
Proof.
  vm_compute. repeat split; reflexivity.
Qed.

Lemma checkAuth_undecodable_token_witness :
  let w := world_with "not-a-jwt" 1700000000000 in
  outcome (authService.checkAuth sample_decode) w = inl signed_out
  /\ localStorage (after (authService.checkAuth sample_decode) w) !! AUTH_TOKEN
     = None.
Proof.
  destruct (checkAuth_undecodable_token sample_decode
              (world_with "not-a-jwt" 1700000000000) "not-a-jwt"
              eq_refl eq_refl) as (_ & Hout & Hne & _).
  split; [exact Hout|]. apply Hne. discriminate.
Defined.

Lemma checkAuth_after_login_witness :
  exists (r : axios.AxiosResponse authService.AuthResponse)
         (d : authService.DecodedToken),
    token_issued = axios.Fulfilled r
    /\ localStorage
         (after (authService.login sample_decode "admin" "secret" token_issued)
            empty_world) !! AUTH_TOKEN
       = Some (authService.access_token (axios.data r))
    /\ sample_decode (authService.access_token (axios.data r)) = Some d
    /\ user_of sample_claims = user_of d
    /\ forall now : Z,
         js_lt (authService.exp d) (divide now 1000) = false ->
         authService.checkAuth sample_decode
           (set_clock now
              (after (authService.login sample_decode "admin" "secret"
                        token_issued) empty_world))
         = (inl {| authService.isAuthenticated := true;
                   authService.user := Some (user_of d) |},
            set_clock now
              (after (authService.login sample_decode "admin" "secret"
                        token_issued) empty_world)).
Proof.
  apply (checkAuth_after_login sample_decode eq_refl "admin" "secret"
           token_issued empty_world).
  reflexivity.
Defined.

(** C9 fails as stated: two successive calls read the clock twice.  With a
    token that expires at 1700000000 s, a first call at that very second
    answers authenticated and keeps the token; a second call one
    millisecond later answers unauthenticated and removes it. *)
Lemma checkAuth_twice_across_expiry :
  let w := world_with sample_token 1700000000000 in
  let w1 := after (authService.checkAuth sample_decode) w in
  outcome (authService.checkAuth sample_decode) w
  = inl (signed_in sample_claims)
  /\ localStorage w1 !! AUTH_TOKEN = Some sample_token
  /\ outcome (authService.checkAuth sample_decode) (set_clock 1700000000001 w1)
     = inl signed_out
  /\ localStorage
       (after (authService.checkAuth sample_decode)
          (set_clock 1700000000001 w1)) !! AUTH_TOKEN
     = None.
Proof.
  vm_compute. repeat split; reflexivity.
Qed.

Lemma checkAuth_twice_witness :
  let w := world_with sample_token 1699999999000 in
  outcome (authService.checkAuth sample_decode)
    (set_clock 1699999999500 (after (authService.checkAuth sample_decode) w))
  = outcome (authService.checkAuth sample_decode) w
  /\ after (authService.checkAuth sample_decode)
       (set_clock 1699999999500
          (after (authService.checkAuth sample_decode) w))
     = set_clock 1699999999500
         (after (authService.checkAuth sample_decode) w).
Proof.
  apply (checkAuth_twice sample_decode
           (world_with sample_token 1699999999000) 1699999999500).
  right. right. intros t d Ht Hd.
  vm_compute in Ht. injection Ht as <-.
  vm_compute in Hd. injection Hd as <-.
  reflexivity.
Defined.

(** C7 fails as stated: with an empty string stored under [auth_token] the
    request leaves without an [Authorization] header. *)
Lemma request_interceptor_empty_token :
  let w := world_with "" 1700000000000 in
  localStorage w !! AUTH_TOKEN = Some ""
  /\ axios.request_interceptor logs_request w = (inl logs_request, w)
  /\ headers logs_request ≫= (.!! "Authorization") = None.
Proof.
  vm_compute. repeat split; reflexivity.
Qed.

Lemma request_interceptor_spec_witness :
  outcome (axios.request_interceptor logs_request)
    (world_with sample_token 1700000000000)
  = inl {| method := "GET"; url := "/api/logs?lines=100"; body := None;
           headers := Some {[ "Authorization" := "Bearer " ++ sample_token ]} |}.
Proof.
  apply (proj1 (proj2 (request_interceptor_spec logs_request
                         (world_with sample_token 1700000000000)))
           sample_token ∅);
    [reflexivity | discriminate | reflexivity].
Defined.

Lemma header_logout_keeps_token_witness :
  let w := world_with sample_token 1700000000000 in
  outcome Header.handleLogout w = inl tt
  /\ localStorage (after Header.handleLogout w) = localStorage w
  /\ localStorage (after Header.handleLogout w) !! AUTH_TOKEN
     = Some sample_token
  /\ effects_since w (after Header.handleLogout w)
     = [ConsoleLog "Выход из системы"; RouterNavigate "/login"]
  /\ localStorage (after authService.logout w) !! AUTH_TOKEN = None
  /\ effects_since w (after authService.logout w)
     = [StorageRemove AUTH_TOKEN; LocationAssign "/login"].
Proof.
  apply (header_logout_keeps_token
           (world_with sample_token 1700000000000) sample_token).
  reflexivity.
Defined.

(** ** Worked runs *)

(** The run of the specification: [fetch(100)] answered with two lines,
    then a fetch that fails. *)
Example fetchLogs_then_failure :
  let page := {| LogsViewer.view := LogsViewer.initial;
                 LogsViewer.browser := empty_world |} in
  let shown := after (LogsViewer.fetchLogs two_lines) page in
  let kept := after (LogsViewer.fetchLogs (axios.Rejected network_down)) shown in
  LogsViewer.logs (LogsViewer.view shown) = ["a"; "b"]
  /\ LogsViewer.totalLines (LogsViewer.view shown) = 2
  /\ LogsViewer.logs (LogsViewer.view kept) = ["a"; "b"]
  /\ LogsViewer.totalLines (LogsViewer.view kept) = 2.
Proof. vm_compute. repeat split; reflexivity. Qed.

(** [login] stores the token before it decodes it: a fulfilled request
    whose token does not decode ends in the same error as a rejected one,
    with the token left in the storage. *)
Example login_undecodable_token_stored :
  outcome (authService.login sample_decode "admin" "secret" garbage_issued)
    empty_world
  = inr (JsError authService.LOGIN_FAILED)
  /\ localStorage
       (after (authService.login sample_decode "admin" "secret" garbage_issued)
          empty_world) !! AUTH_TOKEN
     = Some "not-a-jwt".
Proof. vm_compute. split; reflexivity. Qed.

(** [divide] returns what the IEEE 754 division of the Standard Library,
    at precision 53 and maximal exponent 1024, returns on the samples. *)
Example divide_is_binary64_division :
  forallb
    (fun '(a, b) =>
       same_number (divide a (Z.to_pos b)) (ieee_divide a (Z.to_pos b)))
    division_samples
  = true.
Proof. vm_compute. reflexivity. Qed.

(** [Date.now() / 1000] is rounded: 1700000000001 / 1000 is the Number
    3565158400002097 / 2^21, just below 1700000000.001. *)
Example divide_rounds :
  divide 1700000000001 1000 = Finite (3565158400002097 # 2097152)
  /\ nearest_binary64 (1700000000001 # 1000) = divide 1700000000001 1000
  /\ js_lt (Finite (1700000000001 # 1000)) (Finite (1700000000001 # 1000))
     = false
  /\ js_lt (divide 1700000000001 1000) (Finite (1700000000001 # 1000))
     = true.
Proof. vm_compute. repeat split; reflexivity. Qed.

(** A token whose [exp] is the Number written 1700000000.001 is still
    valid when the clock reads 1700000000001 ms: the quotient rounds to
    that very Number, which is not less than itself. *)
Example checkAuth_within_rounding :
  let d := with_exp (nearest_binary64 (1700000000001 # 1000)) in
  let w := world_with sample_token 1700000000001 in
  authService.checkAuth (decode_as d) w = (inl (signed_in d), w).
Proof. vm_compute. reflexivity. Qed.

(** A payload without [exp] never expires: [undefined < currentTime] is
    false at every clock reading. *)
Example checkAuth_without_exp (now : Z) :
  let w := world_with sample_token now in
  authService.checkAuth (decode_as (with_exp NaN)) w
  = (inl (signed_in (with_exp NaN)), w).
Proof. reflexivity. Qed.

(** * Further properties of the sources *)

(** ** How a run changes the world *)

Section Runs.

Import axios.

Lemma send_run (meth path : string) (payload : option FormData) (w : World) :
  pending.send meth path payload w
  = (inl tt, emit (Sent (prepared meth path payload w)) w).
Proof.
  unfold pending.send, request_interceptor, bind, getItem, prepared, bearer.
  simpl. destruct (present (localStorage w !! AUTH_TOKEN)) as [t|]; simpl.
  - by rewrite insert_empty.
  - done.
Qed.

Lemma request_run {T} (meth path : string) (payload : option FormData)
    (settled : Settled T) (w : World) :
  request meth path payload settled w
  = response_interceptor settled (emit (Sent (prepared meth path payload w)) w).
Proof.
  unfold request, request_interceptor, bind, getItem, prepared, bearer.
  simpl. destruct (present (localStorage w !! AUTH_TOKEN)) as [t|]; simpl.
  - by rewrite insert_empty.
  - done.
Qed.

(** The response interceptor adds [redirect_of settled] to the effects and
    changes nothing else. *)
Lemma response_interceptor_world {T} (settled : Settled T) (w : World) :
  localStorage (after (response_interceptor settled) w) = localStorage w
  /\ clock (after (response_interceptor settled) w) = clock w
  /\ effects (after (response_interceptor settled) w)
     = (effects w ++ redirect_of settled)%list.
Proof.
  unfold after. destruct settled as [r|error]; simpl.
  - by rewrite app_nil_r.
  - unfold response_onRejected. destruct (response error) as [r|]; simpl.
    + unfold bind. destruct (status r =? 401)%Z; simpl.
      * done.
      * by rewrite app_nil_r.
    + by rewrite app_nil_r.
Qed.

Lemma response_interceptor_outcome {T} (settled : Settled T) (w : World) :
  match settled with
  | Fulfilled r => outcome (response_interceptor settled) w = inl r
  | Rejected error =>
      exists e, outcome (response_interceptor settled) w = inr (Rejection e)
                /\ err_status e = from_option status 0 (response error)
  end.
Proof.
  unfold outcome. destruct settled as [r|error]; simpl; [done|].
  unfold response_onRejected. destruct (response error) as [r|]; simpl.
  - unfold bind. destruct (status r =? 401)%Z; by eexists.
  - by eexists.
Qed.

Lemma request_world {T} (meth path : string) (payload : option FormData)
    (settled : Settled T) (w : World) :
  localStorage (after (request meth path payload settled) w) = localStorage w
  /\ clock (after (request meth path payload settled) w) = clock w
  /\ effects (after (request meth path payload settled) w)
     = (effects w ++ Sent (prepared meth path payload w)
                     :: redirect_of settled)%list.
Proof.
  unfold after. rewrite request_run.
  destruct (response_interceptor_world settled
              (emit (Sent (prepared meth path payload w)) w))
    as (Hs & Hc & He).
  unfold after in *. rewrite Hs, Hc, He. simpl.
  by rewrite <- app_assoc.
Qed.

Lemma request_outcome {T} (meth path : string) (payload : option FormData)
    (settled : Settled T) (w : World) :
  outcome (request meth path payload settled) w
  = outcome (response_interceptor settled) w.
Proof.
  unfold outcome. rewrite request_run.
  destruct settled as [r|error]; simpl; [done|].
  unfold response_onRejected. destruct (response error) as [r|]; simpl.
  - unfold bind. by destruct (status r =? 401)%Z.
  - done.
Qed.

Lemma last_app_snoc {A} (l m : list A) (x : A) :
  last (l ++ m ++ [x]) = Some x.
Proof. by rewrite app_assoc, last_snoc. Qed.

Lemma requests_app (es es' : list Effect) :
  requests (es ++ es') = (requests es ++ requests es')%list.
Proof. unfold requests. apply omap_app. Qed.

Lemma requests_redirect {T} (settled : Settled T) :
  requests (redirect_of settled) = [].
Proof.
  destruct settled as [r|error]; simpl; [done|].
  destruct (response error) as [r|]; [|done].
  by destruct (status r =? 401)%Z.
Qed.

End Runs.

(** ** authService beyond the claims *)

Section MoreSession.

Import authService.

Variable jwtDecode : string -> option DecodedToken.

(** The four ways [checkAuth] can go, as one case analysis. *)
Lemma checkAuth_cases (w : World) :
  (present (localStorage w !! AUTH_TOKEN) = None
   /\ checkAuth jwtDecode w = (inl signed_out, w))
  \/ (exists t, present (localStorage w !! AUTH_TOKEN) = Some t
                /\ jwtDecode t = None
                /\ checkAuth jwtDecode w
                   = (inl signed_out, after (removeItem AUTH_TOKEN) w))
  \/ (exists t d, present (localStorage w !! AUTH_TOKEN) = Some t
                  /\ jwtDecode t = Some d
                  /\ js_lt (exp d) (divide (clock w) 1000) = true
                  /\ checkAuth jwtDecode w
                     = (inl signed_out, after (removeItem AUTH_TOKEN) w))
  \/ (exists t d, present (localStorage w !! AUTH_TOKEN) = Some t
                  /\ jwtDecode t = Some d
                  /\ js_lt (exp d) (divide (clock w) 1000) = false
                  /\ checkAuth jwtDecode w = (inl (signed_in d), w)).
Proof.
  destruct (present (localStorage w !! AUTH_TOKEN)) as [t|] eqn:Hp.
  - destruct (jwtDecode t) as [d|] eqn:Hd.
    + destruct (js_lt (exp d) (divide (clock w) 1000)) eqn:Hlt.
      * right. right. left. exists t, d.
        split; [done|]. split; [done|]. split; [done|].
        by apply (checkAuth_expired jwtDecode w t d).
      * right. right. right. exists t, d.
        split; [done|]. split; [done|]. split; [done|].
        by apply (checkAuth_valid jwtDecode w t d).
    + right. left. exists t. split; [done|]. split; [done|].
      by apply (checkAuth_undecodable jwtDecode w t).
  - left. split; [done|]. by apply checkAuth_absent.
Qed.

(** X1: [checkAuth] answers authenticated exactly when the storage holds a
    non-empty token that decodes and for which the test
    [exp < Date.now() / 1000] fails: the comparison is the one of binary64
    Numbers, against the rounded quotient, and it also fails for a payload
    without [exp], which the comparison converts to [NaN]. *)
Theorem checkAuth_authenticated_iff (w : World) :
  (exists st, outcome (checkAuth jwtDecode) w = inl st
              /\ isAuthenticated st = true)
  <-> (exists t d, localStorage w !! AUTH_TOKEN = Some t
                   /\ t ≠ ""
                   /\ jwtDecode t = Some d
                   /\ js_lt (exp d) (divide (clock w) 1000) = false).
Proof.
  unfold outcome. split.
  - intros (st & Hst & Hauth).
    destruct (checkAuth_cases w)
      as [[_ Hc]|[(t & _ & _ & Hc)|[(t & d & _ & _ & _ & Hc)
                                   |(t & d & Hp & Hd & Hle & Hc)]]];
      rewrite Hc in Hst; simpl in Hst; injection Hst as <-;
      try discriminate Hauth.
    apply present_Some in Hp as [Hw Hne]. by exists t, d.
  - intros (t & d & Hw & Hne & Hd & Hle).
    exists (signed_in d). split; [|done].
    rewrite (checkAuth_valid jwtDecode w t d); [done| |done|].
    + rewrite Hw. by apply present_nonempty.
    + done.
Qed.

(** X2: whatever the storage holds, the state [checkAuth] returns is one of
    the two well-formed ones: unauthenticated without a user, or
    authenticated with the user made of the decoded claims; and an
    authenticated answer leaves the world untouched. *)
Theorem checkAuth_answers (w : World) :
  outcome (checkAuth jwtDecode) w = inl signed_out
  \/ exists t d, localStorage w !! AUTH_TOKEN = Some t
                 /\ jwtDecode t = Some d
                 /\ outcome (checkAuth jwtDecode) w = inl (signed_in d)
                 /\ after (checkAuth jwtDecode) w = w.
Proof.
  unfold outcome, after.
  destruct (checkAuth_cases w)
    as [[_ Hc]|[(t & _ & _ & Hc)|[(t & d & _ & _ & _ & Hc)
                                 |(t & d & Hp & Hd & Hle & Hc)]]];
    rewrite Hc; simpl; try (by left).
  right. apply present_Some in Hp as [Hw _]. by exists t, d.
Qed.

(** X3: [checkAuth] touches nothing but the key [auth_token]: every other
    key of the storage and the clock are as before, and its only possible
    effect is one removal of [auth_token]; it never navigates, logs or
    sends a request. *)
Theorem checkAuth_frame (w : World) :
  clock (after (checkAuth jwtDecode) w) = clock w
  /\ (forall k : string,
        k ≠ AUTH_TOKEN ->
        localStorage (after (checkAuth jwtDecode) w) !! k
        = localStorage w !! k)
  /\ (after (checkAuth jwtDecode) w = w
      \/ (effects_since w (after (checkAuth jwtDecode) w)
          = [StorageRemove AUTH_TOKEN]
          /\ localStorage (after (checkAuth jwtDecode) w)
             = delete AUTH_TOKEN (localStorage w))).
Proof.
  assert (forall k : string, k ≠ AUTH_TOKEN ->
            localStorage (after (removeItem AUTH_TOKEN) w) !! k
            = localStorage w !! k) as Hother.
  { intros k Hk. unfold after, removeItem. simpl.
    by apply lookup_delete_ne. }
  assert (effects_since w (after (removeItem AUTH_TOKEN) w)
          = [StorageRemove AUTH_TOKEN]) as Heff.
  { by apply effects_since_app. }
  unfold after at 1 2 3 4 5.
  destruct (checkAuth_cases w)
    as [[_ Hc]|[(t & _ & _ & Hc)|[(t & d & _ & _ & _ & Hc)
                                 |(t & d & Hp & Hd & Hle & Hc)]]];
    rewrite Hc; simpl.
  - split; [done|]. split; [done|]. by left.
  - split; [done|]. split; [exact Hother|]. right. by split.
  - split; [done|]. split; [exact Hother|]. right. by split.
  - split; [done|]. split; [done|]. by left.
Qed.

(** X4: [logout] removes [auth_token] (also when none was stored) and then
    assigns [/login] to [window.location.href]; whatever the decoder and
    the clock, a [checkAuth] afterwards answers unauthenticated and changes
    nothing. *)
Theorem logout_then_checkAuth (w : World) (now : Z) :
  outcome logout w = inl tt
  /\ localStorage (after logout w) = delete AUTH_TOKEN (localStorage w)
  /\ effects_since w (after logout w)
     = [StorageRemove AUTH_TOKEN; LocationAssign "/login"]
  /\ checkAuth jwtDecode (set_clock now (after logout w))
     = (inl signed_out, set_clock now (after logout w)).
Proof.
  split; [done|]. split; [done|]. split.
  - apply effects_since_app. unfold after, logout, bind, removeItem, effect.
    simpl. by rewrite <- app_assoc.
  - apply checkAuth_absent. unfold after, logout, bind, removeItem, effect.
    simpl. by rewrite lookup_delete_eq.
Qed.

End MoreSession.

Section MoreLogin.

Import authService.

Variable jwtDecode : string -> option DecodedToken.

(** [login] run to its end, for each way the request can settle. *)
Lemma login_run (username password : string)
    (settled : axios.Settled AuthResponse) (w : World) :
  let sent := Sent (login_request username password w) in
  match settled with
  | axios.Fulfilled r =>
      let token := access_token (axios.data r) in
      localStorage (after (login jwtDecode username password settled) w)
      = <[AUTH_TOKEN := token]> (localStorage w)
      /\ match jwtDecode token with
         | Some d =>
             outcome (login jwtDecode username password settled) w
             = inl (user_of d)
             /\ effects (after (login jwtDecode username password settled) w)
                = (effects w ++ [sent; StorageSet AUTH_TOKEN token])%list
         | None =>
             outcome (login jwtDecode username password settled) w
             = inr (JsError LOGIN_FAILED)
             /\ effects (after (login jwtDecode username password settled) w)
                = (effects w ++ [sent; StorageSet AUTH_TOKEN token;
                                 ConsoleError "Ошибка при авторизации:"])%list
         end
  | axios.Rejected error =>
      localStorage (after (login jwtDecode username password settled) w)
      = localStorage w
      /\ outcome (login jwtDecode username password settled) w
         = inr (JsError LOGIN_FAILED)
      /\ effects (after (login jwtDecode username password settled) w)
         = (effects w ++ sent :: redirect_of settled
                      ++ [ConsoleError "Ошибка при авторизации:"])%list
  end.
Proof.
  unfold outcome, after, login, try_catch, bind, axios.post.
  rewrite request_run.
  change (append "password" password (append "username" username []))
    with (login_form username password).
  fold (login_request username password w).
  destruct settled as [r|error].
  - simpl. unfold decode.
    destruct (jwtDecode (access_token (axios.data r))) as [d|]; simpl.
    + split; [done|]. split; [done|]. by rewrite <- app_assoc.
    + split; [done|]. split; [done|]. by rewrite <- !app_assoc.
  - pose proof (response_interceptor_world (T := AuthResponse)
                  (axios.Rejected error)
                  (emit (Sent (login_request username password w)) w))
      as (Hs & _ & He).
    pose proof (response_interceptor_outcome (T := AuthResponse)
                  (axios.Rejected error)
                  (emit (Sent (login_request username password w)) w))
      as (e & Ho & _).
    unfold outcome, after in *.
    destruct (axios.response_interceptor (axios.Rejected error) _)
      as [res w1].
    simpl in *. subst res. simpl.
    split; [done|]. split; [done|].
    rewrite He. by rewrite <- !app_assoc.
Qed.

(** X5: when the request is fulfilled and the returned [access_token]
    decodes, [login] returns the user made of its claims and the storage is
    the old one with [auth_token] set to the new token: a token stored
    before is overwritten, every other key is kept.  The request and the
    storage write are its only effects. *)
Theorem login_success (username password : string)
    (r : axios.AxiosResponse AuthResponse) (d : DecodedToken) (w : World) :
  jwtDecode (access_token (axios.data r)) = Some d ->
  outcome (login jwtDecode username password (axios.Fulfilled r)) w
  = inl (user_of d)
  /\ localStorage
       (after (login jwtDecode username password (axios.Fulfilled r)) w)
     = <[AUTH_TOKEN := access_token (axios.data r)]> (localStorage w)
  /\ effects_since w
       (after (login jwtDecode username password (axios.Fulfilled r)) w)
     = [Sent (login_request username password w);
        StorageSet AUTH_TOKEN (access_token (axios.data r))].
Proof.
  intros Hd.
  pose proof (login_run username password (axios.Fulfilled r) w) as Hrun.
  simpl in Hrun. rewrite Hd in Hrun. destruct Hrun as (Hs & Ho & He).
  split; [done|]. split; [done|]. by apply effects_since_app.
Qed.

(** X6: [login] stores the token before it decodes it.  When the request is
    fulfilled with an [access_token] that does not decode, [login] throws
    the same error as for a rejected request, and the undecodable token
    stays in the storage in place of whatever was there. *)
Theorem login_undecodable (username password : string)
    (r : axios.AxiosResponse AuthResponse) (w : World) :
  jwtDecode (access_token (axios.data r)) = None ->
  outcome (login jwtDecode username password (axios.Fulfilled r)) w
  = inr (JsError LOGIN_FAILED)
  /\ localStorage
       (after (login jwtDecode username password (axios.Fulfilled r)) w)
     !! AUTH_TOKEN
     = Some (access_token (axios.data r)).
Proof.
  intros Hd.
  pose proof (login_run username password (axios.Fulfilled r) w) as Hrun.
  simpl in Hrun. rewrite Hd in Hrun. destruct Hrun as (Hs & Ho & He).
  split; [done|]. rewrite Hs. apply lookup_insert_eq.
Qed.

(** X7: whatever goes wrong in [login], the caller sees the one error
    [new Error(LOGIN_FAILED)], never the normalised error of the
    interceptor nor the error of the decoder, and the last effect before
    the throw is the line on the console. *)
Theorem login_failure_uniform (username password : string)
    (settled : axios.Settled AuthResponse) (w : World) :
  (exists u, outcome (login jwtDecode username password settled) w = inl u)
  \/ (outcome (login jwtDecode username password settled) w
      = inr (JsError LOGIN_FAILED)
      /\ last (effects (after (login jwtDecode username password settled) w))
         = Some (ConsoleError "Ошибка при авторизации:")).
Proof.
  pose proof (login_run username password settled w) as Hrun.
  destruct settled as [r|error]; cbv beta iota zeta in Hrun.
  - destruct Hrun as (_ & Hrun).
    destruct (jwtDecode (access_token (axios.data r))) as [d|].
    + left. destruct Hrun as (Ho & _). by eexists.
    + right. destruct Hrun as (Ho & He). split; [done|].
      rewrite He.
      exact (last_app_snoc (effects w)
               [Sent (login_request username password w);
                StorageSet AUTH_TOKEN (access_token (axios.data r))]
               (ConsoleError "Ошибка при авторизации:")).
  - right. destruct Hrun as (_ & Ho & He). split; [done|].
    rewrite He.
    exact (last_app_snoc (effects w)
             (Sent (login_request username password w)
              :: redirect_of (axios.Rejected error))
             (ConsoleError "Ошибка при авторизации:")).
Qed.

(** X8: [login] sends exactly one request, however it settles: a POST to
    [/api/auth/token] whose form holds [username] and then [password].
    The request interceptor treats it like any other request, so a
    non-empty token still in the storage travels with it as
    [Authorization: Bearer <token>]; without such a token it carries no
    header. *)
Theorem login_sends (username password : string)
    (settled : axios.Settled AuthResponse) (w : World) :
  requests
    (effects_since w (after (login jwtDecode username password settled) w))
  = [ {| method := "POST"; url := "/api/auth/token";
         body := Some [("username", username); ("password", password)];
         headers :=
           Some match present (localStorage w !! AUTH_TOKEN) with
                | Some t => {[ "Authorization" := "Bearer " ++ t ]}
                | None => ∅
                end |} ].
Proof.
  pose proof (login_run username password settled w) as Hrun.
  destruct settled as [r|error]; cbv beta iota zeta in Hrun.
  - destruct Hrun as (_ & Hrun).
    destruct (jwtDecode (access_token (axios.data r))) as [d|];
      destruct Hrun as (_ & He);
      rewrite (effects_since_app _ _ _ He); done.
  - destruct Hrun as (_ & _ & He).
    rewrite (effects_since_app _ _ _ He).
    change (requests (Sent ?c :: ?es)) with (c :: requests es).
    rewrite requests_app, requests_redirect. done.
Qed.

(** X20: a session in full.  Whatever [login] did, a [logout] after it
    leaves the storage without [auth_token] and with every other key as it
    was before the [login]. *)
Theorem login_then_logout (username password : string)
    (settled : axios.Settled AuthResponse) (w : World) :
  localStorage
    (after logout (after (login jwtDecode username password settled) w))
  = delete AUTH_TOKEN (localStorage w).
Proof.
  pose proof (login_run username password settled w) as Hrun.
  unfold after at 1. unfold logout, bind, removeItem, effect. simpl.
  destruct settled as [r|error]; cbv beta iota zeta in Hrun.
  - destruct Hrun as (-> & _). apply delete_insert_eq.
  - by destruct Hrun as (-> & _).
Qed.

End MoreLogin.

(** ** The interceptors and logsService beyond the claims *)

Section MoreWrapper.

Import axios.

Lemma receive_fulfilled {T} (r : AxiosResponse T) (w : World) :
  pending.receive (Fulfilled r) w = (inl (data r), w).
Proof. done. Qed.

Lemma receive_rejected {T} (error : AxiosError) (w : World) :
  exists e w',
    pending.receive (T := T) (Rejected error) w = (inr (Rejection e), w')
    /\ err_status e = from_option status 0 (response error)
    /\ localStorage w' = localStorage w
    /\ clock w' = clock w
    /\ effects w' = (effects w ++ redirect_of (T := T) (Rejected error))%list.
Proof.
  pose proof (response_interceptor_world (T := T) (Rejected error) w)
    as (Hs & Hc & He).
  pose proof (response_interceptor_outcome (T := T) (Rejected error) w)
    as (e & Ho & Hst).
  unfold outcome, after in *. unfold pending.receive, bind.
  destruct (response_interceptor (Rejected error) w) as [res w'].
  simpl in *. subst res. by exists e, w'.
Qed.

Lemma getLogs_run (lines : option Z)
    (settled : Settled logsService.LogsResponse) (w : World) :
  logsService.getLogs lines settled w
  = pending.receive settled
      (emit (Sent (logs_request_for (default 100 lines) w)) w).
Proof.
  unfold logsService.getLogs, get, pending.receive, bind.
  by rewrite request_run.
Qed.

Lemma clearLogs_run (settled : Settled logsService.ClearLogsResponse)
    (w : World) :
  logsService.clearLogs settled w
  = pending.receive settled (emit (Sent (clear_request w)) w).
Proof.
  unfold logsService.clearLogs, post, pending.receive, bind.
  by rewrite request_run.
Qed.

(** X9: a request sends the page to [/login] exactly when it is rejected
    with a response of status 401: not when it is fulfilled, not for any
    other status, not when no response came back. *)
Theorem redirect_iff_401 {T} (meth path : string) (payload : option FormData)
    (settled : Settled T) (w : World) :
  LocationAssign "/login"
    ∈ effects_since w (after (request meth path payload settled) w)
  <-> exists error r, settled = Rejected error
                      /\ response error = Some r
                      /\ status r = 401.
Proof.
  destruct (request_world meth path payload settled w) as (_ & _ & He).
  rewrite (effects_since_app _ _ _ He).
  rewrite elem_of_cons. split.
  - intros [Hsent|Hin]; [discriminate|].
    destruct settled as [r|error]; simpl in Hin.
    + by apply elem_of_nil in Hin.
    + destruct (response error) as [r|] eqn:Hr.
      * destruct (Z.eqb_spec (status r) 401) as [H401|_].
        -- by exists error, r.
        -- by apply elem_of_nil in Hin.
      * by apply elem_of_nil in Hin.
  - intros (error & r & -> & Hr & H401). right. simpl.
    rewrite Hr, H401. simpl. by left.
Qed.

(** X10: for a safe integer [lines], [getLogs(lines)] sends one GET to
    [/api/logs?lines=<lines>] in decimal digits, with 100 for a missing
    argument, and leaves the storage alone.  It returns the body of a
    fulfilled response and, unlike the page that calls it, lets the
    normalised error of a rejected one through to its caller. *)
Theorem getLogs_propagates (lines : option Z)
    (settled : Settled logsService.LogsResponse) (w : World) :
  isSafeInteger (default 100 lines) = true ->
  effects_since w (after (logsService.getLogs lines settled) w)
  = Sent (prepared "GET" ("/api/logs?lines=" ++ pretty (default 100 lines))
            None w)
    :: redirect_of settled
  /\ localStorage (after (logsService.getLogs lines settled) w)
     = localStorage w
  /\ match settled with
     | Fulfilled r =>
         outcome (logsService.getLogs lines settled) w = inl (data r)
     | Rejected error =>
         exists e,
           outcome (logsService.getLogs lines settled) w = inr (Rejection e)
           /\ err_status e = from_option status 0 (response error)
     end.
Proof.
  intros _. unfold outcome, after. rewrite getLogs_run.
  destruct settled as [r|error].
  - rewrite receive_fulfilled. simpl.
    split; [by apply effects_since_app|]. done.
  - destruct (receive_rejected (T := logsService.LogsResponse) error
                (emit (Sent (logs_request_for (default 100 lines) w)) w))
      as (e & w' & -> & Hst & Hs & _ & He).
    simpl. split; [|split].
    + apply effects_since_app. rewrite He. simpl. by rewrite <- app_assoc.
    + done.
    + by exists e.
Qed.

End MoreWrapper.

(** ** pages/LogsViewer beyond the claims *)

Section MoreLogWindow.

Import LogsViewer LogsViewerLifecycle.

Lemma fetchLogs_start_run (limit : Z) (p : Page) :
  fetchLogs_start limit p
  = (inl tt,
     {| view := loading_view (view p);
        browser := emit (Sent (logs_request_for limit (browser p)))
                     (browser p) |}).
Proof.
  unfold fetchLogs_start, bind, setIsLoading, update, lift.
  cbn [view browser]. by rewrite send_run.
Qed.

Lemma fetchLogs_resume_run
    (settled : axios.Settled logsService.LogsResponse) (p : Page) :
  exists w',
    fetchLogs_resume settled p
    = (inl tt, {| view := settled_view settled (view p); browser := w' |})
    /\ localStorage w' = localStorage (browser p)
    /\ clock w' = clock (browser p)
    /\ effects w'
       = (effects (browser p)
          ++ redirect_of settled ++ fetch_failure_log settled)%list.
Proof.
  unfold fetchLogs_resume, try_finally, try_catch, bind, setIsLoading,
    setLogs, setTotalLines, update, lift.
  destruct settled as [r|error].
  - rewrite receive_fulfilled. cbn [view browser].
    exists (browser p). split; [done|]. split; [done|]. split; [done|].
    simpl. by rewrite app_nil_r.
  - destruct (receive_rejected (T := logsService.LogsResponse) error
                (browser p)) as (e & w' & -> & _ & Hs & Hc & He).
    cbn [view browser].
    exists (emit (ConsoleError "Ошибка при получении логов:") w').
    split; [done|]. split; [done|]. split; [done|].
    simpl. rewrite He. by rewrite <- app_assoc.
Qed.

(** [fetchLogs], run without interruption, is its first half followed by
    its second. *)
Lemma fetchLogs_split
    (settled : axios.Settled logsService.LogsResponse) (p : Page) :
  fetchLogs settled p
  = (fetchLogs_start (linesLimit (view p)) ;;; fetchLogs_resume settled) p.
Proof.
  unfold bind at 1. rewrite fetchLogs_start_run.
  unfold fetchLogs, fetchLogs_resume, try_finally, try_catch, bind,
    setIsLoading, setLogs, setTotalLines, update, read, lift.
  cbn [view browser linesLimit loading_view default]. rewrite getLogs_run.
  cbn [default]. done.
Qed.

Lemma fetchLogs_run
    (settled : axios.Settled logsService.LogsResponse) (p : Page) :
  exists w',
    fetchLogs settled p
    = (inl tt, {| view := settled_view settled (view p); browser := w' |})
    /\ localStorage w' = localStorage (browser p)
    /\ clock w' = clock (browser p)
    /\ effects w'
       = (effects (browser p)
          ++ Sent (logs_request_for (linesLimit (view p)) (browser p))
             :: redirect_of settled ++ fetch_failure_log settled)%list.
Proof.
  rewrite fetchLogs_split. unfold bind. rewrite fetchLogs_start_run.
  destruct (fetchLogs_resume_run settled
              {| view := loading_view (view p);
                 browser := emit (Sent (logs_request_for (linesLimit (view p))
                                          (browser p))) (browser p) |})
    as (w' & -> & Hs & Hc & He).
  exists w'. split.
  - by destruct settled.
  - split; [done|]. split; [done|]. rewrite He. simpl.
    by rewrite <- app_assoc.
Qed.

(** X11: [fetchLogs] never lets a failure out.  It sends one GET for the
    current [linesLimit]; when that is rejected it writes one line to the
    console (after the assignment of [/login] if the status was 401) and
    returns normally; the storage is never touched. *)
Theorem fetchLogs_swallows
    (settled : axios.Settled logsService.LogsResponse) (p : Page) :
  outcome (fetchLogs settled) p = inl tt
  /\ localStorage (browser (after (fetchLogs settled) p))
     = localStorage (browser p)
  /\ effects_since (browser p) (browser (after (fetchLogs settled) p))
     = Sent (logs_request_for (linesLimit (view p)) (browser p))
       :: redirect_of settled
       ++ match settled with
          | axios.Fulfilled _ => []
          | axios.Rejected _ => [ConsoleError "Ошибка при получении логов:"]
          end.
Proof.
  destruct (fetchLogs_run settled p) as (w' & Hrun & Hs & _ & He).
  unfold outcome, after. rewrite Hrun. simpl.
  split; [done|]. split; [done|]. by apply effects_since_app.
Qed.

End MoreLogWindow.

Section ClearLogs.

Import LogsViewer.

(** X12: [handleClearLogs] without effect on the log window.  When the
    user declines the confirmation nothing happens at all.  When the user
    confirms and the clearing request is rejected, the page keeps its
    cells as they were, the error is swallowed with one line on the
    console, and no logs are fetched: the POST is the only request. *)
Theorem handleClearLogs_without_refetch
    (cleared : axios.Settled logsService.ClearLogsResponse)
    (refetched : axios.Settled logsService.LogsResponse)
    (error : axios.AxiosError) (p : Page) :
  handleClearLogs false cleared refetched p = (inl tt, p)
  /\ outcome (handleClearLogs true (axios.Rejected error) refetched) p
     = inl tt
  /\ view (after (handleClearLogs true (axios.Rejected error) refetched) p)
     = view p
  /\ effects_since (browser p)
       (browser (after (handleClearLogs true (axios.Rejected error)
                          refetched) p))
     = Sent (clear_request (browser p))
       :: redirect_of (T := logsService.ClearLogsResponse)
            (axios.Rejected error)
       ++ [ConsoleError "Ошибка при очистке логов:"].
Proof.
  split; [done|].
  unfold outcome, after, handleClearLogs, try_catch, bind, lift.
  rewrite clearLogs_run.
  destruct (receive_rejected (T := logsService.ClearLogsResponse) error
              (emit (Sent (clear_request (browser p))) (browser p)))
    as (e & w' & -> & _ & _ & _ & He).
  cbn [view browser fst snd effect].
  split; [done|]. split; [done|].
  apply effects_since_app. simpl. rewrite He. simpl.
  by rewrite <- !app_assoc.
Qed.

(** X13: when the user confirms and the clearing request is fulfilled,
    [handleClearLogs] goes on exactly like a [fetchLogs] started right
    after the POST, whatever the body of the answer says: two requests
    leave, the POST and then the GET for the current [linesLimit], and the
    log window ends up as that fetch leaves it.  [handleClearLogs] returns
    normally in every case. *)
Theorem handleClearLogs_refetches
    (r : axios.AxiosResponse logsService.ClearLogsResponse)
    (refetched : axios.Settled logsService.LogsResponse) (p : Page) :
  handleClearLogs true (axios.Fulfilled r) refetched p
  = fetchLogs refetched
      {| view := view p;
         browser := emit (Sent (clear_request (browser p))) (browser p) |}
  /\ outcome (handleClearLogs true (axios.Fulfilled r) refetched) p = inl tt
  /\ view (after (handleClearLogs true (axios.Fulfilled r) refetched) p)
     = settled_view refetched (view p)
  /\ requests
       (effects_since (browser p)
          (browser (after (handleClearLogs true (axios.Fulfilled r)
                             refetched) p)))
     = [clear_request (browser p);
        logs_request_for (linesLimit (view p)) (browser p)].
Proof.
  assert (handleClearLogs true (axios.Fulfilled r) refetched p
          = fetchLogs refetched
              {| view := view p;
                 browser := emit (Sent (clear_request (browser p)))
                              (browser p) |}) as Heq.
  { unfold handleClearLogs, try_catch, bind, lift.
    rewrite clearLogs_run, receive_fulfilled.
    destruct (fetchLogs_run refetched
                {| view := view p;
                   browser := emit (Sent (clear_request (browser p)))
                                (browser p) |}) as (w' & -> & _).
    done. }
  split; [exact Heq|].
  unfold outcome, after. rewrite Heq.
  destruct (fetchLogs_run refetched
              {| view := view p;
                 browser := emit (Sent (clear_request (browser p)))
                              (browser p) |}) as (w' & -> & _ & _ & He).
  cbn [view browser fst snd] in *.
  split; [done|]. split; [done|].
  assert (effects w'
          = (effects (browser p)
             ++ Sent (clear_request (browser p))
                :: Sent (logs_request_for (linesLimit (view p)) (browser p))
                :: redirect_of refetched ++ fetch_failure_log refetched)%list)
    as He'.
  { rewrite He. simpl. by rewrite <- app_assoc. }
  rewrite (effects_since_app _ _ _ He').
  change (requests (Sent ?a :: Sent ?b :: ?es)) with (a :: b :: requests es).
  rewrite requests_app, requests_redirect. by destruct refetched.
Qed.

End ClearLogs.

(** ** The polling timer of the log viewer *)

Section Lifecycle.

Import LogsViewer LogsViewerLifecycle.

Lemma after_start (limit : Z) (p : Page) :
  after (fetchLogs_start limit) p
  = {| view := loading_view (view p);
       browser := emit (Sent (logs_request_for limit (browser p)))
                    (browser p) |}.
Proof. unfold after. by rewrite fetchLogs_start_run. Qed.

Lemma after_resume_limit
    (settled : axios.Settled logsService.LogsResponse) (p : Page) :
  linesLimit (view (after (fetchLogs_resume settled) p))
  = linesLimit (view p).
Proof.
  unfold after.
  destruct (fetchLogs_resume_run settled p) as (w' & -> & _).
  by destruct settled.
Qed.

Lemma after_resume_storage
    (settled : axios.Settled logsService.LogsResponse) (p : Page) :
  localStorage (browser (after (fetchLogs_resume settled) p))
  = localStorage (browser p).
Proof.
  unfold after.
  destruct (fetchLogs_resume_run settled p) as (w' & -> & Hs & _).
  exact Hs.
Qed.

Lemma run_effect_one_timer (c : Component) :
  timers c = ∅ -> one_timer (run_effect c).
Proof.
  intros Ht. unfold one_timer, run_effect. cbn [cleanup timers page].
  rewrite Ht, after_start. cbn [view loading_view linesLimit].
  apply insert_empty.
Qed.

Lemma run_cleanup_mounted (c : Component) (i : nat) (limit : Z) :
  cleanup c = Some i -> timers c = {[ i := limit ]} ->
  timers (run_cleanup c) = ∅.
Proof.
  intros Hc Ht. unfold run_cleanup. rewrite Hc. cbn [timers].
  rewrite Ht. apply delete_singleton_eq.
Qed.

Lemma step_one_timer (e : Event) (c : Component) :
  one_timer c -> one_timer (step e c).
Proof.
  unfold one_timer at 1. intros Hinv.
  destruct e as [| |value| |interval|settled]; simpl.
  - destruct (cleanup c) as [i|] eqn:Hc.
    + unfold one_timer. by rewrite Hc.
    + by apply run_effect_one_timer.
  - destruct (cleanup c) as [i|] eqn:Hc.
    + unfold one_timer, run_cleanup. rewrite Hc. cbn [cleanup timers].
      rewrite Hinv. apply delete_singleton_eq.
    + unfold one_timer, run_cleanup. by rewrite Hc, Hc.
  - destruct (cleanup c) as [i|] eqn:Hc.
    + destruct (value =? linesLimit (view (page c)))%Z.
      * unfold one_timer. by rewrite Hc.
      * apply run_effect_one_timer.
        by apply (run_cleanup_mounted _ i (linesLimit (view (page c)))).
    + unfold one_timer. by rewrite Hc.
  - destruct (cleanup c) as [i|] eqn:Hc.
    + destruct (isLoading (view (page c))).
      * unfold one_timer. by rewrite Hc.
      * unfold one_timer. cbn [cleanup timers with_page page].
        rewrite Hc, after_start. done.
    + unfold one_timer. by rewrite Hc.
  - destruct (timers c !! interval) as [limit|].
    + unfold one_timer. cbn [cleanup timers with_page page].
      rewrite after_start. cbn [view loading_view linesLimit].
      by destruct (cleanup c).
    + unfold one_timer. by destruct (cleanup c).
  - destruct (cleanup c) as [i|] eqn:Hc.
    + unfold one_timer. cbn [cleanup timers with_page page].
      by rewrite Hc, after_resume_limit.
    + unfold one_timer. cbn [cleanup timers with_page page].
      by rewrite Hc.
Qed.

Lemma run_snoc (events : list Event) (e : Event) (c : Component) :
  run (events ++ [e]) c = step e (run events c).
Proof. unfold run. by rewrite fold_left_app. Qed.

Lemma run_one_timer (events : list Event) (w : World) :
  one_timer (run events (unmounted w)).
Proof.
  induction events as [|e events IH] using rev_ind.
  - done.
  - rewrite run_snoc. by apply step_one_timer.
Qed.

(** X14: through any sequence of mounts, unmounts, limit changes, clicks,
    timer ticks and settling requests, the component holds exactly one
    live interval while it is mounted, the one its pending cleanup will
    clear, and the [fetchLogs] of that interval reads the current
    [linesLimit]; while it is unmounted no interval is left. *)
Theorem timer_invariant (events : list Event) (w : World) :
  match cleanup (run events (unmounted w)) with
  | Some interval =>
      timers (run events (unmounted w))
      = {[ interval :=
             linesLimit (view (page (run events (unmounted w)))) ]}
  | None => timers (run events (unmounted w)) = ∅
  end.
Proof.
  pose proof (run_one_timer events w) as Hinv.
  unfold one_timer in Hinv. exact Hinv.
Qed.

(** X15: choosing another limit in the select, on a mounted component in
    its regular state, clears the running interval, starts a fresh one for
    the new limit and sends exactly one GET, for the new limit; the lines
    on display stay until that fetch settles.  Choosing the limit that is
    already set does nothing. *)
Theorem select_limit_restarts (c : Component) (i : nat) (value : Z) :
  cleanup c = Some i ->
  timers c = {[ i := linesLimit (view (page c)) ]} ->
  value ≠ linesLimit (view (page c)) ->
  step (SelectLimit (linesLimit (view (page c)))) c = c
  /\ view (page (step (SelectLimit value) c))
     = {| logs := logs (view (page c));
          totalLines := totalLines (view (page c));
          isLoading := true;
          linesLimit := value |}
  /\ cleanup (step (SelectLimit value) c) = Some (next_timer c)
  /\ timers (step (SelectLimit value) c) = {[ next_timer c := value ]}
  /\ effects_since (browser (page c))
       (browser (page (step (SelectLimit value) c)))
     = [Sent (logs_request_for value (browser (page c)))].
Proof.
  intros Hc Ht Hne. simpl. rewrite Hc, Z.eqb_refl.
  destruct (Z.eqb_spec value (linesLimit (view (page c)))) as [->|_];
    [done|].
  split; [done|].
  unfold run_effect, run_cleanup. cbn [cleanup timers page with_page].
  rewrite Hc. cbn [cleanup timers page next_timer].
  rewrite after_start.
  unfold after, setLinesLimit, update.
  cbn [view browser snd loading_view linesLimit logs totalLines].
  split; [done|]. split; [done|]. split.
  - rewrite Ht, delete_singleton_eq. apply insert_empty.
  - by apply effects_since_app.
Qed.

(** X16: in every state the component can reach, a tick of a timer that
    is not its live interval does nothing, so nothing is polled once the
    component is unmounted; a tick of the live interval sends exactly one
    GET, for the limit that is current at that moment, and sets the
    loading flag. *)
Theorem tick_polls_current_limit (events : list Event) (w : World)
    (id : nat) :
  match cleanup (run events (unmounted w)) with
  | Some interval =>
      if decide (id = interval) then
        effects_since (browser (page (run events (unmounted w))))
          (browser (page (step (Tick id) (run events (unmounted w)))))
        = [Sent (logs_request_for
                   (linesLimit (view (page (run events (unmounted w)))))
                   (browser (page (run events (unmounted w)))))]
        /\ isLoading
             (view (page (step (Tick id) (run events (unmounted w)))))
           = true
      else step (Tick id) (run events (unmounted w))
           = run events (unmounted w)
  | None =>
      step (Tick id) (run events (unmounted w)) = run events (unmounted w)
  end.
Proof.
  pose proof (run_one_timer events w) as Hinv. unfold one_timer in Hinv.
  destruct (cleanup (run events (unmounted w))) as [interval|].
  - destruct (decide (id = interval)) as [->|Hne].
    + simpl. rewrite Hinv, lookup_singleton_eq.
      cbn [page with_page]. rewrite after_start.
      cbn [view browser loading_view isLoading].
      split; [|done]. by apply effects_since_app.
    + simpl. rewrite Hinv, lookup_singleton_ne; [done|]. congruence.
  - simpl. by rewrite Hinv, lookup_empty.
Qed.

Lemma step_storage (e : Event) (c : Component) :
  localStorage (browser (page (step e c)))
  = localStorage (browser (page c)).
Proof.
  destruct e as [| |value| |interval|settled]; simpl.
  - destruct (cleanup c); [done|].
    unfold run_effect. cbn [page]. by rewrite after_start.
  - unfold run_cleanup. by destruct (cleanup c).
  - destruct (cleanup c) as [i|] eqn:Hc; [|done].
    destruct (value =? linesLimit (view (page c)))%Z; [done|].
    unfold run_effect, run_cleanup. cbn [cleanup page with_page].
    rewrite Hc. cbn [page]. by rewrite after_start.
  - destruct (cleanup c); [|done].
    destruct (isLoading (view (page c))); [done|].
    cbn [page with_page]. by rewrite after_start.
  - destruct (timers c !! interval); [|done].
    cbn [page with_page]. by rewrite after_start.
  - destruct (cleanup c); cbn [page with_page browser].
    + apply after_resume_storage.
    + apply after_resume_storage.
Qed.

(** X17: nothing the log viewer does, in any order and from any state,
    changes the storage: not a fetch answered with 401, not any other
    failure. *)
Theorem lifecycle_keeps_storage (events : list Event) (c : Component) :
  localStorage (browser (page (run events c)))
  = localStorage (browser (page c)).
Proof.
  induction events as [|e events IH] using rev_ind.
  - done.
  - rewrite run_snoc, step_storage. exact IH.
Qed.

End Lifecycle.

(** ** hooks/useAuth *)

Section AuthHook.

Import authService useAuth.

Variable jwtDecode : string -> option DecodedToken.

(** X18: the effect of the hook always completes: whatever the storage
    holds, and whatever the decoder does with it, [checkUserAuth] returns,
    the loading flag ends up off, the state of the hook is the answer of
    [checkAuth], and the browser is as [checkAuth] left it. *)
Theorem checkUserAuth_completes (h : Hook) :
  outcome (checkUserAuth jwtDecode) h = inl tt
  /\ isLoading (state (after (checkUserAuth jwtDecode) h)) = false
  /\ outcome (checkAuth jwtDecode) (browser h)
     = inl (authState (state (after (checkUserAuth jwtDecode) h)))
  /\ browser (after (checkUserAuth jwtDecode) h)
     = after (checkAuth jwtDecode) (browser h).
Proof.
  destruct (checkAuth_returns jwtDecode (browser h)) as [st Hst].
  unfold outcome, after in *.
  unfold checkUserAuth, bind, lift, setAuthState, setIsLoading, update.
  destruct (checkAuth jwtDecode (browser h)) as [res w'].
  simpl in Hst. subst res. simpl. by destruct st.
Qed.

(** X19: the logout of the hook removes the token, assigns [/login] to
    [window.location.href] and puts the hook into the unauthenticated
    state without touching its loading flag; when the effect of the hook
    runs again after that, at any clock reading, it finds no token, stays
    unauthenticated and writes nothing more. *)
Theorem handleLogout_signs_out (h : Hook) (now : Z) :
  outcome handleLogout h = inl tt
  /\ state (after handleLogout h)
     = {| isLoading := isLoading (state h); authState := signed_out |}
  /\ localStorage (browser (after handleLogout h))
     = delete AUTH_TOKEN (localStorage (browser h))
  /\ effects_since (browser h) (browser (after handleLogout h))
     = [StorageRemove AUTH_TOKEN; LocationAssign "/login"]
  /\ after (checkUserAuth jwtDecode)
       {| state := state (after handleLogout h);
          browser := set_clock now (browser (after handleLogout h)) |}
     = {| state := {| isLoading := false; authState := signed_out |};
          browser := set_clock now (browser (after handleLogout h)) |}.
Proof.
  split; [done|]. split; [done|]. split; [done|]. split.
  - apply effects_since_app.
    unfold after, handleLogout, bind, lift, logout, removeItem, effect.
    simpl. by rewrite <- app_assoc.
  - unfold after, checkUserAuth, bind, lift, setAuthState, setIsLoading,
      update.
    cbn [browser state].
    rewrite (checkAuth_absent jwtDecode).
    + done.
    + unfold handleLogout, bind, lift, logout, removeItem, effect. simpl.
      by rewrite lookup_delete_eq.
Qed.

End AuthHook.

(** ** Sessions and requests together *)

Section SessionsAndRequests.

Import authService.

Variable jwtDecode : string -> option DecodedToken.

Lemma getLogs_requests (lines : option Z)
    (settled : axios.Settled logsService.LogsResponse) (w : World) :
  requests (effects_since w (after (logsService.getLogs lines settled) w))
  = [logs_request_for (default 100 lines) w].
Proof.
  unfold after. rewrite getLogs_run.
  destruct settled as [r|error].
  - rewrite receive_fulfilled. simpl.
    by rewrite (effects_since_app w _
                  [Sent (logs_request_for (default 100 lines) w)]).
  - destruct (receive_rejected (T := logsService.LogsResponse) error
                (emit (Sent (logs_request_for (default 100 lines) w)) w))
      as (e & w' & -> & _ & _ & _ & He).
    simpl.
    rewrite (effects_since_app w w'
               (Sent (logs_request_for (default 100 lines) w)
                :: redirect_of (T := logsService.LogsResponse)
                     (axios.Rejected error))).
    + change (requests (Sent ?c :: ?es)) with (c :: requests es).
      by rewrite requests_redirect.
    + rewrite He. simpl. by rewrite <- app_assoc.
Qed.

(** X21: the token of a fulfilled [login] is the one the next request
    carries.  After a [login] whose request was fulfilled with a non-empty
    [access_token], whether or not that token decodes, a [getLogs] for a
    safe integer [lines] sends one request: a GET to
    [/api/logs?lines=<lines>], without a body, whose [Authorization]
    header is [Bearer <access_token>]. *)
Theorem login_then_request_authorized (username password : string)
    (r : axios.AxiosResponse AuthResponse) (lines : option Z)
    (settled : axios.Settled logsService.LogsResponse) (w : World) :
  access_token (axios.data r) ≠ "" ->
  isSafeInteger (default 100 lines) = true ->
  exists config : RequestConfig,
    requests
      (effects_since
         (after (login jwtDecode username password (axios.Fulfilled r)) w)
         (after (logsService.getLogs lines settled)
            (after (login jwtDecode username password (axios.Fulfilled r))
               w)))
    = [config]
    /\ method config = "GET"
    /\ url config = "/api/logs?lines=" ++ pretty (default 100 lines)
    /\ body config = None
    /\ header "Authorization" config
       = Some ("Bearer " ++ access_token (axios.data r)).
Proof.
  intros Hne _. rewrite getLogs_requests.
  eexists. split; [reflexivity|].
  split; [done|]. split; [done|]. split; [done|].
  pose proof (login_run jwtDecode username password (axios.Fulfilled r) w)
    as Hrun.
  cbv beta iota zeta in Hrun. destruct Hrun as (Hs & _).
  unfold header, logs_request_for, prepared, bearer. simpl.
  rewrite Hs, lookup_insert_eq, (present_nonempty _ Hne).
  apply lookup_singleton_eq.
Qed.

(** X22: after [logout] the next request is anonymous: a [getLogs] for a
    safe integer [lines] sends one request, a GET to
    [/api/logs?lines=<lines>] without a body, and that request carries no
    [Authorization] header, whatever token was stored before. *)
Theorem logout_then_request_anonymous (lines : option Z)
    (settled : axios.Settled logsService.LogsResponse) (w : World) :
  isSafeInteger (default 100 lines) = true ->
  exists config : RequestConfig,
    requests
      (effects_since (after logout w)
         (after (logsService.getLogs lines settled) (after logout w)))
    = [config]
    /\ method config = "GET"
    /\ url config = "/api/logs?lines=" ++ pretty (default 100 lines)
    /\ body config = None
    /\ header "Authorization" config = None.
Proof.
  intros _. rewrite getLogs_requests.
  eexists. split; [reflexivity|].
  split; [done|]. split; [done|]. split; [done|].
  unfold header, logs_request_for, prepared, bearer.
  unfold after, logout, bind, removeItem, effect. simpl.
  by rewrite lookup_delete_eq.
Qed.

(** X23: the logout of the header does not end the session: [checkAuth]
    reads the storage and the clock alone, neither of which the header
    touches, so it gives the same answer after that logout as before it,
    and a user with a valid token is still authenticated. *)
Theorem header_logout_session_survives (w : World) :
  outcome (checkAuth jwtDecode) (after Header.handleLogout w)
  = outcome (checkAuth jwtDecode) w.
Proof.
  unfold outcome, checkAuth, bind, getItem.
  change (localStorage (after Header.handleLogout w)) with (localStorage w).
  destruct (present (localStorage w !! AUTH_TOKEN)) as [t|]; [|done].
  unfold try_catch, decode. destruct (jwtDecode t) as [d|]; [|done].
  unfold ret, Date_now.
  change (clock (after Header.handleLogout w)) with (clock w).
  by destruct (js_lt (exp d) (divide (clock w) 1000)).
Qed.

(** X24: expiry is monotone in time.  With the same storage, once
    [checkAuth] answers unauthenticated at some clock reading it answers
    unauthenticated at every later one. *)
Theorem checkAuth_expiry_monotone (w : World) (now later : Z) :
  now <= later ->
  outcome (checkAuth jwtDecode) (set_clock now w) = inl signed_out ->
  outcome (checkAuth jwtDecode) (set_clock later w) = inl signed_out.
Proof.
  intros Hle Hout. unfold outcome in *.
  destruct (checkAuth_cases jwtDecode (set_clock later w))
    as [[_ Hc]|[(t & _ & _ & Hc)|[(t & d & _ & _ & _ & Hc)
                                 |(t & d & Hp & Hd & Hexp & Hc)]]];
    try (by rewrite Hc).
  rewrite (checkAuth_valid jwtDecode (set_clock now w) t d) in Hout.
  - discriminate Hout.
  - exact Hp.
  - exact Hd.
  - simpl in *.
    destruct (js_lt (exp d) (divide now 1000)) eqn:Hnow; [|done].
    rewrite <- Hexp. symmetry.
    apply (js_lt_le_trans _ _ _ Hnow). by apply divide_mono.
Qed.

(** X25: the request interceptor is idempotent: run again on its own
    result, with the same storage, it returns that result unchanged. *)
Theorem request_interceptor_idempotent (config : RequestConfig) (w : World) :
  exists config',
    axios.request_interceptor config w = (inl config', w)
    /\ axios.request_interceptor config' w = (inl config', w).
Proof.
  unfold axios.request_interceptor, bind, getItem.
  destruct (present (localStorage w !! AUTH_TOKEN)) as [t|];
    destruct (headers config) as [h|] eqn:Hh.
  - eexists. split; [done|]. simpl. by rewrite insert_insert_eq.
  - exists config. by rewrite Hh.
  - by exists config.
  - by exists config.
Qed.

End SessionsAndRequests.

(** ** Closed instances of the further properties *)

Lemma login_success_witness :
  outcome (authService.login sample_decode "admin" "secret"
             (axios.Fulfilled issued_response)) empty_world
  = inl (user_of sample_claims)
  /\ localStorage
       (after (authService.login sample_decode "admin" "secret"
                 (axios.Fulfilled issued_response)) empty_world)
     = <[AUTH_TOKEN := sample_token]> (localStorage empty_world)
  /\ effects_since empty_world
       (after (authService.login sample_decode "admin" "secret"
                 (axios.Fulfilled issued_response)) empty_world)
     = [Sent (login_request "admin" "secret" empty_world);
        StorageSet AUTH_TOKEN sample_token].
Proof.
  apply (login_success sample_decode "admin" "secret" issued_response
           sample_claims empty_world).
  reflexivity.
Defined.

Lemma login_undecodable_witness :
  outcome (authService.login sample_decode "admin" "secret"
             (axios.Fulfilled garbage_response))
    (world_with sample_token 1700000000000)
  = inr (JsError authService.LOGIN_FAILED)
  /\ localStorage
       (after (authService.login sample_decode "admin" "secret"
                 (axios.Fulfilled garbage_response))
          (world_with sample_token 1700000000000))
     !! AUTH_TOKEN
     = Some "not-a-jwt".
Proof.
  apply (login_undecodable sample_decode "admin" "secret" garbage_response
           (world_with sample_token 1700000000000)).
  reflexivity.
Defined.

Lemma select_limit_restarts_witness :
  LogsViewerLifecycle.step
    (LogsViewerLifecycle.SelectLimit
       (LogsViewer.linesLimit
          (LogsViewer.view (LogsViewerLifecycle.page freshly_mounted))))
    freshly_mounted
  = freshly_mounted
  /\ LogsViewer.view
       (LogsViewerLifecycle.page
          (LogsViewerLifecycle.step (LogsViewerLifecycle.SelectLimit 500)
             freshly_mounted))
     = {| LogsViewer.logs := [];
          LogsViewer.totalLines := 0;
          LogsViewer.isLoading := true;
          LogsViewer.linesLimit := 500 |}
  /\ LogsViewerLifecycle.cleanup
       (LogsViewerLifecycle.step (LogsViewerLifecycle.SelectLimit 500)
          freshly_mounted)
     = Some 1%nat
  /\ LogsViewerLifecycle.timers
       (LogsViewerLifecycle.step (LogsViewerLifecycle.SelectLimit 500)
          freshly_mounted)
     = {[ 1%nat := 500 ]}
  /\ effects_since
       (LogsViewer.browser (LogsViewerLifecycle.page freshly_mounted))
       (LogsViewer.browser
          (LogsViewerLifecycle.page
             (LogsViewerLifecycle.step (LogsViewerLifecycle.SelectLimit 500)
                freshly_mounted)))
     = [Sent (logs_request_for 500
                (LogsViewer.browser
                   (LogsViewerLifecycle.page freshly_mounted)))].
Proof.
  apply (select_limit_restarts freshly_mounted 0%nat 500);
    [reflexivity | reflexivity | discriminate].
Defined.

Lemma login_then_request_authorized_witness :
  exists config : RequestConfig,
    requests
      (effects_since
         (after (authService.login sample_decode "admin" "secret"
                   (axios.Fulfilled issued_response)) empty_world)
         (after (logsService.getLogs (Some 50) two_lines)
            (after (authService.login sample_decode "admin" "secret"
                      (axios.Fulfilled issued_response)) empty_world)))
    = [config]
    /\ method config = "GET"
    /\ url config = "/api/logs?lines=" ++ pretty (default 100 (Some 50))
    /\ body config = None
    /\ header "Authorization" config
       = Some ("Bearer "
               ++ authService.access_token (axios.data issued_response)).
Proof.
  apply (login_then_request_authorized sample_decode "admin" "secret"
           issued_response (Some 50) two_lines empty_world).
  - discriminate.
  - reflexivity.
Defined.

Lemma logout_then_request_anonymous_witness :
  exists config : RequestConfig,
    requests
      (effects_since
         (after authService.logout (world_with sample_token 1700000000000))
         (after (logsService.getLogs None two_lines)
            (after authService.logout
               (world_with sample_token 1700000000000))))
    = [config]
    /\ method config = "GET"
    /\ url config = "/api/logs?lines=" ++ pretty (default 100 None)
    /\ body config = None
    /\ header "Authorization" config = None.
Proof.
  apply (logout_then_request_anonymous None two_lines
           (world_with sample_token 1700000000000)).
  reflexivity.
Defined.

Lemma getLogs_propagates_witness :
  effects_since (world_with sample_token 1700000000000)
    (after (logsService.getLogs (Some 200) (axios.Rejected unauthorized))
       (world_with sample_token 1700000000000))
  = Sent (prepared "GET" ("/api/logs?lines=" ++ pretty (default 100 (Some 200)))
            None (world_with sample_token 1700000000000))
    :: redirect_of (T := logsService.LogsResponse) (axios.Rejected unauthorized)
  /\ localStorage
       (after (logsService.getLogs (Some 200) (axios.Rejected unauthorized))
          (world_with sample_token 1700000000000))
     = localStorage (world_with sample_token 1700000000000)
  /\ exists e,
       outcome (logsService.getLogs (Some 200) (axios.Rejected unauthorized))
         (world_with sample_token 1700000000000)
       = inr (Rejection e)
       /\ err_status e
          = from_option axios.status 0 (axios.response unauthorized).
Proof.
  apply (getLogs_propagates (Some 200) (axios.Rejected unauthorized)
           (world_with sample_token 1700000000000)).
  reflexivity.
Defined.

Lemma checkAuth_expiry_monotone_witness :
  outcome (authService.checkAuth sample_decode)
    (set_clock 1700000002000 (world_with sample_token 0))
  = inl signed_out.
Proof.
  apply (checkAuth_expiry_monotone sample_decode (world_with sample_token 0)
           1700000001000 1700000002000).
  - discriminate.
  - reflexivity.
Defined.
